(** * Verification of the Race Dash core: simulated CAN worker, SignalBuffer,
      the dashboard screens, swipe navigation and start-up.

    Sources: [race_dash_core.py] (SignalBuffer, CANThread) and
    [race_dash_gui.py] (shift light bars, LapTimerScreen, MainDashScreen,
    SensorTestScreen, SettingsScreen._apply_settings, RaceDashApp and the
    [__main__] block). *)

From Stdlib Require Import ZArith QArith Qround Qabs Ascii Lia Lqa.
From stdpp Require Import base gmap list strings pretty.

Open Scope Z_scope.

(* ================================================================== *)
(** ** CANThread._simulate_can *)

Module Sim.

(** Loop-carried variables of [_simulate_can]: [rpm] and [rpm_direction]. *)
Record sim_state := SimState { rpm : Z; rpm_direction : Z }.

(** Values produced by one loop iteration before [update_multiple]
    (the random [coolant_temp] and [oil_pressure] are left out). *)
Record sim_out := SimOut {
  out_rpm : Z; out_speed : Z; out_throttle : Z; out_brake : Z }.

(** Python's [int(a / b)] on a float quotient truncates toward zero; for
    the small integers involved the float quotient is exact enough that
    this is [Z.quot a b]. *)
Definition py_int_div (a b : Z) : Z := Z.quot a b.

(** [_simulate_can]: rpm = 1000, rpm_direction = 40 before the loop. *)
Definition sim_init : sim_state := SimState 1000 40.

(** One iteration of the [while not self.stop_event.is_set()] loop. *)
Definition sim_tick (s : sim_state) : sim_state * sim_out :=
  let rpm0 := rpm s + rpm_direction s in
  let '(rpm1, dir1) :=
    if 13500 <=? rpm0 then (13500, -40)
    else if rpm0 <=? 1000 then (1000, 40)
    else (rpm0, rpm_direction s) in
  let speed := py_int_div rpm1 100 in
  let '(throttle, brake) :=
    if 0 <? dir1 then (Z.min 100 (py_int_div (rpm1 - 1000) 125), 0)
    else (0, Z.min 100 (py_int_div (13500 - rpm1) 125)) in
  (SimState rpm1 dir1, SimOut rpm1 speed throttle brake).

(** State after [n] iterations. *)
Fixpoint sim_states (n : nat) : sim_state :=
  match n with
  | O => sim_init
  | S k => fst (sim_tick (sim_states k))
  end.

(** Values written to the buffer at iteration [n] (1-based). *)
Definition sim_output (n : nat) : sim_out := snd (sim_tick (sim_states (pred n))).

(** Spec-side clamp(lo, hi, x). *)
Definition clamp (lo hi x : Z) : Z := Z.max lo (Z.min hi x).

(** Reachable loop states: rpm within the bounds, direction +/-40, and
    the direction already reversed at either bound. *)
Definition sim_inv (s : sim_state) : Prop :=
  1000 <= rpm s <= 13500 /\
  (rpm_direction s = 40 \/ rpm_direction s = -40) /\
  (rpm s = 13500 -> rpm_direction s = -40) /\
  (rpm s = 1000 -> rpm_direction s = 40).

End Sim.

(* ================================================================== *)
(** ** SignalBuffer *)

Module Buffer.

(** Addresses of Python dict objects. *)
Definition loc := positive.

(** [collections.deque] with its [maxlen] ([None]: unbounded); items are
    kept oldest first. *)
Record deque := Deque { dq_maxlen : option nat; dq_items : list (Z * Z) }.

(** [deque.append]: CPython appends on the right, then pops from the left
    when the length exceeds [maxlen]. *)
Definition dq_append (x : Z * Z) (q : deque) : deque :=
  let l := dq_items q ++ [x] in
  match dq_maxlen q with
  | Some m => if (m <? length l)%nat then Deque (Some m) (tl l) else Deque (Some m) l
  | None => Deque None l
  end.

(** Object state of a [SignalBuffer], with the dict objects it allocated
    ([self.data] and the snapshots returned by [get_all]) in [heap], and
    the wall clock read by [time.time()]: the [clk]-th call returns
    [clock clk]. *)
Record sb_state := SB {
  heap : gmap loc (gmap string Z);
  data_ptr : loc;
  history : gmap string deque;
  clock : nat -> Z;
  clk : nat;
  next_loc : loc }.

Definition data_of (st : sb_state) : gmap string Z :=
  default ∅ (heap st !! data_ptr st).

(** [self.data[...] = ...] mutates the dict object in place. *)
Definition set_data (st : sb_state) (d : gmap string Z) : sb_state :=
  SB (<[data_ptr st := d]> (heap st)) (data_ptr st) (history st)
     (clock st) (clk st) (next_loc st).

Definition set_history (st : sb_state) (h : gmap string deque) : sb_state :=
  SB (heap st) (data_ptr st) h (clock st) (clk st) (next_loc st).

(** [time.time()]. *)
Definition time_time (st : sb_state) : Z * sb_state :=
  (clock st (clk st),
   SB (heap st) (data_ptr st) (history st) (clock st) (S (clk st)) (next_loc st)).

Inductive py_exn := KeyError (key : string).

(** The keys of [self.data] in [__init__]. *)
Definition sb_keys : list string :=
  ["rpm"; "speed"; "throttle"; "brake"; "coolant_temp"; "oil_pressure";
   "timestamp"]%string.

(** The six signal channels (every key of [self.data] but [timestamp]). *)
Definition channels : list string :=
  ["rpm"; "speed"; "throttle"; "brake"; "coolant_temp"; "oil_pressure"]%string.

(** [SignalBuffer.__init__], with the [maxlen] given to each history deque
    abstracted ([__init__] passes [maxlen=100]); [self.data] is the first
    object allocated. *)
Definition sb_new_with (ml : option nat) (clk0 : nat -> Z) : sb_state :=
  SB {[ 1%positive := list_to_map ((fun k => (k, 0)) <$> sb_keys) ]}
     1%positive
     (list_to_map ((fun k => (k, Deque ml [])) <$> sb_keys))
     clk0 O 2%positive.

Definition sb_new (clk0 : nat -> Z) : sb_state := sb_new_with (Some 100%nat) clk0.

(** The three steps shared by [update] and [update_multiple]:
    [self.data[key] = value] ... *)
Definition set_value (st : sb_state) (kv : string * Z) : sb_state :=
  set_data st (<[kv.1 := kv.2]> (data_of st)).

(** ... [self.data['timestamp'] = time.time()] ... *)
Definition stamp (st : sb_state) : sb_state :=
  let '(t, st2) := time_time st in
  set_data st2 (<["timestamp"%string := t]> (data_of st2)).

(** ... and [self.history[key].append((time.time(), value))] for a key
    present in [self.history] (the subscript is evaluated before the call
    to [time.time()]). *)
Definition append_history (st : sb_state) (kv : string * Z) : sb_state :=
  match history st !! kv.1 with
  | Some q =>
      let '(t, st2) := time_time st in
      set_history st2 (<[kv.1 := dq_append (t, kv.2) q]> (history st2))
  | None => st
  end.

(** [update(key, value)]: the value and the timestamp are stored before
    [self.history[key]] is looked up, so an unknown key raises [KeyError]
    with the first two writes already done. *)
Definition update (key : string) (value : Z) (st : sb_state)
    : sb_state * option py_exn :=
  let st3 := stamp (set_value st (key, value)) in
  match history st3 !! key with
  | None => (st3, Some (KeyError key))
  | Some _ => (append_history st3 (key, value), None)
  end.

(** [update_multiple(updates)]; [updates] is the dict's items in
    iteration order: first loop, timestamp, second loop (guarded by
    [if key in self.history]). *)
Definition update_multiple (updates : list (string * Z)) (st : sb_state)
    : sb_state * option py_exn :=
  let st1 := foldl set_value st updates in
  let st2 := stamp st1 in
  (foldl append_history st2 updates, None).

(** [get(key)]: [self.data.get(key, 0)]. *)
Definition get (key : string) (st : sb_state) : Z :=
  default 0 (data_of st !! key).

(** [get_all()]: [self.data.copy()] allocates a new dict. *)
Definition get_all (st : sb_state) : sb_state * loc :=
  let l := next_loc st in
  (SB (<[l := data_of st]> (heap st)) (data_ptr st) (history st)
      (clock st) (clk st) (Pos.succ l), l).

(** Python slice [xs[i:]] for an integer [i]. *)
Definition py_slice_from {A} (i : Z) (xs : list A) : list A :=
  if i <? 0 then drop (Z.to_nat (Z.of_nat (length xs) + i)) xs
  else drop (Z.to_nat i) xs.

(** Python truthiness of [count] ([None] or an int). *)
Definition py_truthy (count : option Z) : bool :=
  match count with Some c => negb (c =? 0) | None => false end.

(** [get_history(key, count=None)]. *)
Definition get_history (key : string) (count : option Z) (st : sb_state)
    : py_exn + list (Z * Z) :=
  match history st !! key with
  | None => inl (KeyError key)
  | Some q =>
      if py_truthy count then inr (py_slice_from (- default 0 count) (dq_items q))
      else inr (dq_items q)
  end.

(** Single-threaded call sequences; an exception is caught by the caller
    and the buffer keeps whatever state the call left. *)
Inductive op := OpUpdate (k : string) (v : Z) | OpUpdateMultiple (u : list (string * Z)).

Definition exec (o : op) (st : sb_state) : sb_state :=
  match o with
  | OpUpdate k v => fst (update k v st)
  | OpUpdateMultiple u => fst (update_multiple u st)
  end.

Definition run (ops : list op) (st : sb_state) : sb_state := foldl (fun s o => exec o s) st ops.

(** *** Spec-side notions the claims are stated with *)

(** The value of the last write to channel [c] in a batch, if any (a dict
    has one entry per key; on a list of pairs the last one wins). *)
Definition last_write_step (c : string) (acc : option Z) (kv : string * Z) : option Z :=
  if decide (kv.1 = c) then Some kv.2 else acc.

(** The value of the last write to channel [c] in a sequence of calls. *)
Definition last_write_op (c : string) (acc : option Z) (o : op) : option Z :=
  match o with
  | OpUpdate k v => if decide (k = c) then Some v else acc
  | OpUpdateMultiple u => foldl (last_write_step c) acc u
  end.

Definition last_write (c : string) (ops : list op) : option Z :=
  foldl (last_write_op c) None ops.

(** The last [n] elements of a list. *)
Definition lastn {A} (n : nat) (l : list A) : list A := drop (length l - n) l.

(** The entries of channel [c]'s history deque ([[]] if there is none). *)
Definition hist_items (c : string) (st : sb_state) : list (Z * Z) :=
  match history st !! c with Some q => dq_items q | None => [] end.

(** A buffer whose deques have no [maxlen] keeps every (timestamp, value)
    pair written, in write order: the write log of the spec. *)
Definition sb_new_unbounded (clk0 : nat -> Z) : sb_state := sb_new_with None clk0.

(** The 100-bounded view of an unbounded buffer. *)
Definition trunc (q : deque) : deque := Deque (Some 100%nat) (lastn 100 (dq_items q)).

Definition bound (st : sb_state) : sb_state :=
  SB (heap st) (data_ptr st) (trunc <$> history st) (clock st) (clk st) (next_loc st).

End Buffer.

(* ================================================================== *)
(** ** SettingsScreen._apply_settings: restart of the CAN thread *)

Module Supervisor.

(** Life-cycle of a [CANThread]: not started; started and looping;
    [stop_event] set but [run] not yet returned; [run] returned. *)
Inductive wstate := Created | Running | StopRequested | Stopped.

Definition wstate_eqb (x y : wstate) : bool :=
  match x, y with
  | Created, Created | Running, Running
  | StopRequested, StopRequested | Stopped, Stopped => true
  | _, _ => false
  end.

Record worker := Worker { w_simulate : bool; w_state : wstate }.

(** Python values passed as keyword arguments. *)
Inductive pyval := PBool (b : bool) | PStr (s : string) | PInt (z : Z).

Inductive py_exn :=
  | TypeError (unexpected_keyword : string)  (** unexpected keyword argument *)
  | RuntimeError.                           (** [join] before [start] *)

(** The parameters of [CANThread.__init__] in race_dash_core.py:
    [def __init__(self, signal_buffer, simulate=True)]. *)
Definition core_init_params : list string := ["signal_buffer"; "simulate"]%string.

(** [CANThread(signal_buffer, **kwargs)] against an [__init__] with the
    given parameter names: Python raises [TypeError] for the first keyword
    argument that is not a parameter. *)
Definition CANThread_new (params : list string) (kwargs : list (string * pyval))
    : py_exn + worker :=
  match List.find (fun kv => negb (bool_decide (kv.1 ∈ params))) kwargs with
  | Some (k, _) => inl (TypeError k)
  | None =>
      let sim := match List.find (fun kv => bool_decide (kv.1 = "simulate"%string)) kwargs with
                 | Some (_, PBool b) => b
                 | _ => true
                 end in
      inr (Worker sim Created)
  end.

(** [thread.start()]. *)
Definition start (w : worker) : worker :=
  match w_state w with
  | Created => Worker (w_simulate w) Running
  | _ => w
  end.

(** [thread.stop()]: sets [stop_event]. *)
Definition stop (w : worker) : worker :=
  match w_state w with
  | Running => Worker (w_simulate w) StopRequested
  | _ => w
  end.

(** [thread.join(timeout=0.5)]: [stops_in_time] tells whether [run]
    returns within the timeout (a timing fact the code does not control). *)
Definition join (stops_in_time : bool) (w : worker) : py_exn + worker :=
  match w_state w with
  | Created => inl RuntimeError
  | StopRequested | Running =>
      if stops_in_time then inr (Worker (w_simulate w) Stopped) else inr w
  | Stopped => inr w
  end.

(** The part of the app object the method touches: every CANThread object
    created so far ([workers]), the index of [app_ref.can_thread], and the
    settings the new thread is built from. *)
Record app := App {
  workers : list worker;
  can_thread : nat;
  simulate : bool;
  serial_port : string;
  baud_rate : Z }.

(** [SettingsScreen._apply_settings], with [params] the parameter names of
    the [CANThread.__init__] it calls. *)
Definition apply_settings (params : list string) (stops_in_time : bool) (a : app)
    : app * option py_exn :=
  let i := can_thread a in
  (* self.app_ref.can_thread.stop() *)
  let ws1 := alter stop i (workers a) in
  match ws1 !! i with
  | None => (a, None)  (* app_ref.can_thread always names a created thread *)
  | Some w =>
      (* self.app_ref.can_thread.join(timeout=0.5) *)
      match join stops_in_time w with
      | inl e => (App ws1 i (simulate a) (serial_port a) (baud_rate a), Some e)
      | inr w' =>
          let ws2 := <[i := w']> ws1 in
          (* self.app_ref.can_thread = CANThread(...) *)
          match CANThread_new params
                  [("simulate", PBool (simulate a)); ("serial_port", PStr (serial_port a));
                   ("baud_rate", PInt (baud_rate a))]%string with
          | inl e => (App ws2 i (simulate a) (serial_port a) (baud_rate a), Some e)
          | inr nw =>
              (* self.app_ref.can_thread.start() *)
              (App (ws2 ++ [start nw]) (length ws2) (simulate a) (serial_port a)
                   (baud_rate a), None)
          end
      end
  end.

Fixpoint running_count (ws : list worker) : nat :=
  match ws with
  | [] => O
  | w :: ws' => (if wstate_eqb (w_state w) Running then 1 else 0) + running_count ws'
  end.

(** An app object with one started simulated CAN thread as [can_thread]
    ([CANThread(buffer, simulate=True)] then [start()]), default port and
    baud label "115200". [RaceDashApp.build] never gets this far (its own
    [CANThread(...)] call raises [TypeError] before any thread starts), so
    such an object is one a caller builds directly and hands to
    [SettingsScreen(app_ref)]. *)
Definition app0 : app := App [Worker true Running] 0 true "/dev/ttyUSB0" 115200.

End Supervisor.

(* ================================================================== *)
(** ** Concurrent writers and readers of one SignalBuffer *)

Module Concurrent.
Import Buffer.

(** Program counter of a thread. Writers call [update_multiple] on each of
    their batches in turn; readers call [get_all] a number of times. Inside
    [with self.lock:] each statement of the body is one step. *)
Inductive pc :=
  | WIdle (batches : list (list (string * Z)))
  | WSet (b : list (string * Z)) (rest : list (string * Z)) (batches : list (list (string * Z)))
  | WStamp (b : list (string * Z)) (batches : list (list (string * Z)))
  | WAppend (b : list (string * Z)) (rest : list (string * Z)) (batches : list (list (string * Z)))
  | RIdle (calls : nat)
  | RCopy (calls : nat)
  | RRelease (calls : nat).

(** The shared buffer, the owner of [self.lock], the threads, and two
    records kept for the statement only: the batches whose
    [update_multiple] has returned, in order, and every snapshot a reader
    obtained, tagged with the number of batches returned at that time. *)
Record cfg := Cfg {
  sbuf : sb_state;
  lock : option nat;
  threads : list pc;
  committed : list (list (string * Z));
  observed : list (nat * gmap string Z) }.

Inductive step : cfg -> cfg -> Prop :=
  | step_w_acquire c i b bs :
      threads c !! i = Some (WIdle (b :: bs)) -> lock c = None ->
      step c (Cfg (sbuf c) (Some i) (<[i := WSet b b bs]> (threads c)) (committed c) (observed c))
  | step_w_set c i b kv rest bs :
      threads c !! i = Some (WSet b (kv :: rest) bs) ->
      step c (Cfg (set_value (sbuf c) kv) (lock c) (<[i := WSet b rest bs]> (threads c))
                  (committed c) (observed c))
  | step_w_set_done c i b bs :
      threads c !! i = Some (WSet b [] bs) ->
      step c (Cfg (sbuf c) (lock c) (<[i := WStamp b bs]> (threads c)) (committed c) (observed c))
  | step_w_stamp c i b bs :
      threads c !! i = Some (WStamp b bs) ->
      step c (Cfg (stamp (sbuf c)) (lock c) (<[i := WAppend b b bs]> (threads c))
                  (committed c) (observed c))
  | step_w_append c i b kv rest bs :
      threads c !! i = Some (WAppend b (kv :: rest) bs) ->
      step c (Cfg (append_history (sbuf c) kv) (lock c) (<[i := WAppend b rest bs]> (threads c))
                  (committed c) (observed c))
  | step_w_release c i b bs :
      threads c !! i = Some (WAppend b [] bs) ->
      step c (Cfg (sbuf c) None (<[i := WIdle bs]> (threads c)) (committed c ++ [b]) (observed c))
  | step_r_acquire c i n :
      threads c !! i = Some (RIdle (S n)) -> lock c = None ->
      step c (Cfg (sbuf c) (Some i) (<[i := RCopy n]> (threads c)) (committed c) (observed c))
  | step_r_copy c i n :
      threads c !! i = Some (RCopy n) ->
      step c (Cfg (fst (get_all (sbuf c))) (lock c) (<[i := RRelease n]> (threads c))
                  (committed c)
                  (observed c ++ [(length (committed c),
                                   default ∅ (heap (fst (get_all (sbuf c)))
                                                !! snd (get_all (sbuf c))))]))
  | step_r_release c i n :
      threads c !! i = Some (RRelease n) ->
      step c (Cfg (sbuf c) None (<[i := RIdle n]> (threads c)) (committed c) (observed c)).

(** A fresh buffer, the lock free, writers and readers not started. *)
Definition init_cfg (clk0 : nat -> Z) (writers : list (list (list (string * Z))))
    (readers : list nat) : cfg :=
  Cfg (sb_new clk0) None ((WIdle <$> writers) ++ (RIdle <$> readers)) [] [].

(** The buffer after the given batches, one [update_multiple] call at a
    time. *)
Definition serial (bs : list (list (string * Z))) (st : sb_state) : sb_state :=
  run (OpUpdateMultiple <$> bs) st.

(** An executable scheduler: the step of thread [i], when it can move. *)
Definition sched_step (c : cfg) (i : nat) : option cfg :=
  let set p := <[i := p]> (threads c) in
  match threads c !! i with
  | Some (WIdle (b :: bs)) =>
      match lock c with
      | None => Some (Cfg (sbuf c) (Some i) (set (WSet b b bs)) (committed c) (observed c))
      | Some _ => None
      end
  | Some (WSet b (kv :: rest) bs) =>
      Some (Cfg (set_value (sbuf c) kv) (lock c) (set (WSet b rest bs)) (committed c) (observed c))
  | Some (WSet b [] bs) =>
      Some (Cfg (sbuf c) (lock c) (set (WStamp b bs)) (committed c) (observed c))
  | Some (WStamp b bs) =>
      Some (Cfg (stamp (sbuf c)) (lock c) (set (WAppend b b bs)) (committed c) (observed c))
  | Some (WAppend b (kv :: rest) bs) =>
      Some (Cfg (append_history (sbuf c) kv) (lock c) (set (WAppend b rest bs))
                (committed c) (observed c))
  | Some (WAppend b [] bs) =>
      Some (Cfg (sbuf c) None (set (WIdle bs)) (committed c ++ [b]) (observed c))
  | Some (RIdle (S n)) =>
      match lock c with
      | None => Some (Cfg (sbuf c) (Some i) (set (RCopy n)) (committed c) (observed c))
      | Some _ => None
      end
  | Some (RCopy n) =>
      Some (Cfg (fst (get_all (sbuf c))) (lock c) (set (RRelease n)) (committed c)
                (observed c ++ [(length (committed c),
                                 default ∅ (heap (fst (get_all (sbuf c)))
                                              !! snd (get_all (sbuf c))))]))
  | Some (RRelease n) =>
      Some (Cfg (sbuf c) None (set (RIdle n)) (committed c) (observed c))
  | _ => None
  end.

Fixpoint run_sched (c : cfg) (sched : list nat) : option cfg :=
  match sched with
  | [] => Some c
  | i :: sched' =>
      match sched_step c i with
      | Some c' => run_sched c' sched'
      | None => None
      end
  end.

(** A concrete run: one writer thread sending one batch, then one reader
    thread calling [get_all] once. *)
Definition demo_clock (k : nat) : Z := Z.of_nat k.
Definition demo_init : cfg :=
  init_cfg demo_clock [[[("rpm", 1); ("speed", 2)]%string]] [1%nat].
Definition demo_sched : list nat := [0; 0; 0; 0; 0; 0; 0; 0; 1; 1; 1]%nat.
Definition demo_final : cfg := default demo_init (run_sched demo_init demo_sched).
Definition demo_snapshot : gmap string Z := snd (default (O, ∅) (observed demo_final !! O)).

(** *** Invariant of the interleavings *)

Definition idle (p : pc) : Prop :=
  match p with WIdle _ | RIdle _ => True | _ => False end.

(** Two buffers that agree on everything the public methods read. *)
Definition sb_equiv (s1 s2 : sb_state) : Prop :=
  data_of s1 = data_of s2 /\ history s1 = history s2 /\
  clock s1 = clock s2 /\ clk s1 = clk s2.

(** The buffer once a writer inside [update_multiple] has run the rest of
    the body. *)
Definition finish (p : pc) (st : sb_state) : sb_state :=
  match p with
  | WSet b rest _ => foldl append_history (stamp (foldl set_value st rest)) b
  | WStamp b _ => foldl append_history (stamp st) b
  | WAppend _ rest _ => foldl append_history st rest
  | _ => st
  end.

(** Only the lock owner is inside a method body; with the lock free the
    buffer is the serial result of the returned batches; a writer holding
    the lock leaves, once finished, the serial result with its batch added;
    every snapshot taken is the serial result of a prefix of the returned
    batches. *)
Definition inv (st0 : sb_state) (c : cfg) : Prop :=
  (data_ptr (sbuf c) < next_loc (sbuf c))%positive /\
  (forall (n : nat) (d : gmap string Z), (n, d) ∈ observed c ->
     (n <= length (committed c))%nat /\ d = data_of (serial (take n (committed c)) st0)) /\
  match lock c with
  | None =>
      (forall (j : nat) (p : pc), threads c !! j = Some p -> idle p) /\
      sb_equiv (sbuf c) (serial (committed c) st0)
  | Some i =>
      (forall (j : nat) (p : pc), threads c !! j = Some p -> j <> i -> idle p) /\
      match threads c !! i with
      | Some (WSet b rest bs) =>
          sb_equiv (finish (WSet b rest bs) (sbuf c)) (serial (committed c ++ [b]) st0)
      | Some (WStamp b bs) =>
          sb_equiv (finish (WStamp b bs) (sbuf c)) (serial (committed c ++ [b]) st0)
      | Some (WAppend b rest bs) =>
          sb_equiv (finish (WAppend b rest bs) (sbuf c)) (serial (committed c ++ [b]) st0)
      | Some (RCopy _) | Some (RRelease _) => sb_equiv (sbuf c) (serial (committed c) st0)
      | _ => False
      end
  end.

End Concurrent.

(* ================================================================== *)
(** ** CANThread._simulate_can feeding the SignalBuffer *)

Module CanWorker.
Import Sim Buffer.

(** The dict literal passed to [self.buffer.update_multiple], in its
    insertion order; [temp] and [oil] are the values of the two
    [random.randint] calls, evaluated in that order. *)
Definition can_updates (o : sim_out) (temp oil : Z) : list (string * Z) :=
  [("rpm", out_rpm o); ("speed", out_speed o); ("coolant_temp", temp);
   ("oil_pressure", oil); ("throttle", out_throttle o); ("brake", out_brake o)]%string.

(** One iteration of the [while] loop (the [stop_event.wait(0.01)] at its
    end changes no state); [draw] is (coolant_temp, oil_pressure). *)
Definition can_iteration (s : sim_state) (st : sb_state) (draw : Z * Z)
    : sim_state * sb_state :=
  let '(s', o) := sim_tick s in
  (s', fst (update_multiple (can_updates o draw.1 draw.2) st)).

(** The loop run once per element of [draws]. *)
Fixpoint simulate_can_loop (s : sim_state) (st : sb_state) (draws : list (Z * Z))
    : sim_state * sb_state :=
  match draws with
  | [] => (s, st)
  | d :: ds => let '(s', st') := can_iteration s st d in simulate_can_loop s' st' ds
  end.

(** [_simulate_can] from its initial [rpm = 1000], [rpm_direction = 40]. *)
Definition simulate_can (st : sb_state) (draws : list (Z * Z)) : sim_state * sb_state :=
  simulate_can_loop sim_init st draws.

(** The ranges [random.randint(180, 210)] and [random.randint(40, 65)]
    draw from (both bounds included). *)
Definition randint_ok (draws : list (Z * Z)) : Prop :=
  Forall (fun d => 180 <= d.1 <= 210 /\ 40 <= d.2 <= 65) draws.

End CanWorker.

(* ================================================================== *)
(** ** Dashboard screens: shift lights, gear, flash counter *)

Module Display.

(** Kivy [Color(r, g, b, a)] instructions. *)
Record color := Color { c_r : Q; c_g : Q; c_b : Q; c_a : Q }.

#[export] Instance Q_eq_dec : EqDecision Q.
Proof. intros [a b] [c d]. solve_decision. Defined.
#[export] Instance color_eq_dec : EqDecision color.
Proof. intros [a b c d] [a' b' c' d']. solve_decision. Defined.

Definition c_red : color := Color 1 0 0 1.
Definition c_green : color := Color 0 1 0 1.
Definition c_yellow : color := Color 1 1 0 1.
(** Unlit lights: [Color(0.3, 0.3, 0.3, 1)] in [ShiftLightBar],
    [Color(0.15, 0.15, 0.15, 1)] in [ShiftLightBarCircular]. *)
Definition c_off_rect : color := Color 0.3 0.3 0.3 1.
Definition c_off_circ : color := Color 0.15 0.15 0.15 1.

Inductive py_exn := KeyError (key : string) | ValueError.

(** Python code raising [py_exn]: the error monad [py_exn + _]. *)
#[export] Instance py_ret : MRet (sum py_exn) := fun A x => inr x.
#[export] Instance py_bind : MBind (sum py_exn) :=
  fun A B f m => match m with inl e => inl e | inr x => f x end.

(** [list.index(x)]: the position of the first occurrence of [x];
    [None] is the [ValueError] raised when there is none. *)
Fixpoint py_index {A} `{EqDecision A} (x : A) (l : list A) : option nat :=
  match l with
  | [] => None
  | y :: l' => if decide (x = y) then Some O else S <$> py_index x l'
  end.

(** [d[key]] on a dict. *)
Definition getitem (d : gmap string Z) (key : string) : py_exn + Z :=
  match d !! key with Some v => inr v | None => inl (KeyError key) end.

Definition num_lights : nat := 10.

(** The first branch of [update_lights] (the same in [ShiftLightBar] and
    [ShiftLightBarCircular]): the pair [(lights_on, flash_red)].
    [int(ratio * self.num_lights)] with [ratio = (rpm - 10000) / 1250.0]:
    for an integer [rpm] in [[10000, 11250)] the double result is the
    exact value [(rpm - 10000) * 10 / 1250] up to rounding, which never
    moves it across an integer, so [int] yields the truncated quotient. *)
Definition shift_level (rpm : Z) : nat * bool :=
  if rpm <? 10000 then (O, false)
  else if 11250 <=? rpm then (num_lights, true)
  else (Z.to_nat (Z.quot ((rpm - 10000) * Z.of_nat num_lights) 1250), false).

Definition light_order : list nat := [4; 5; 3; 6; 2; 7; 1; 8; 0; 9]%nat.

(** The [Color] chosen for a light at [light_position] in [light_order]. *)
Definition light_color (off : color) (lights_on : nat) (flash_red flash_state : bool)
    (light_position : nat) : color :=
  if flash_red && flash_state then c_red
  else if (light_position <? lights_on)%nat then
    (if (light_position <? 6)%nat then c_green
     else if (light_position <? 8)%nat then c_yellow
     else c_red)
  else off.

(** [update_lights(rpm, flash_state)]: the colour of light [i] for
    [i in range(self.num_lights)], left to right (the rectangle and
    ellipse geometry is not modelled); [off] is the bar's unlit colour. *)
Definition update_lights (off : color) (rpm : Z) (flash_state : bool) : py_exn + list color :=
  let '(lights_on, flash_red) := shift_level rpm in
  mapM (fun i => match py_index i light_order with
                 | Some p => inr (light_color off lights_on flash_red flash_state p)
                 | None => inl ValueError
                 end) (seq 0 num_lights).

Definition ShiftLightBar_update_lights (rpm : Z) (flash_state : bool) : py_exn + list color :=
  update_lights c_off_rect rpm flash_state.

Definition ShiftLightBarCircular_update_lights (rpm : Z) (flash_state : bool)
    : py_exn + list color :=
  update_lights c_off_circ rpm flash_state.

(** The gear chain of [update_display] (identical in [LapTimerScreen] and
    [MainDashScreen]). *)
Definition gear_of_speed (speed : Z) : Z :=
  if speed <? 15 then 1
  else if speed <? 30 then 2
  else if speed <? 50 then 3
  else if speed <? 70 then 4
  else if speed <? 90 then 5
  else 6.

(** [self.flash_counter += 1; flash_state = (self.flash_counter // 5) % 2 == 0]. *)
Definition flash_tick (flash_counter : Z) : Z * bool :=
  let fc := flash_counter + 1 in (fc, (fc / 5) mod 2 =? 0).

(** What [MainDashScreen.update_display] puts on screen: the gauge value
    and its red-background flag, the shift light colours, and the values
    shown by the labels and bars. *)
Record main_view := MainView {
  mv_rpm : Z; mv_gauge_flash : bool; mv_lights : list color; mv_speed : Z;
  mv_temp : Z; mv_gear : Z; mv_throttle : Z; mv_brake : Z }.

(** [MainDashScreen.update_display(dt)] on the snapshot [data] returned by
    [self.buffer.get_all()]: the new [flash_counter] (incremented before
    anything can raise) and the view, or the exception raised. *)
Definition MainDash_update_display (flash_counter : Z) (data : gmap string Z)
    : Z * (py_exn + main_view) :=
  let '(fc, flash_state) := flash_tick flash_counter in
  (fc,
   rpm ← getitem data "rpm";
   let should_flash := (11250 <=? rpm) && flash_state in
   lights ← ShiftLightBar_update_lights rpm flash_state;
   speed ← getitem data "speed";
   temp ← getitem data "coolant_temp";
   let gear := gear_of_speed speed in
   throttle ← getitem data "throttle";
   brake ← getitem data "brake";
   mret (MainView rpm should_flash lights speed temp gear throttle brake)).

(** [SensorTestScreen.update_display(dt)]: the six values shown. *)
Definition SensorTest_update_display (data : gmap string Z) : py_exn + list Z :=
  rpm ← getitem data "rpm";
  speed ← getitem data "speed";
  throttle ← getitem data "throttle";
  brake ← getitem data "brake";
  temp ← getitem data "coolant_temp";
  oil ← getitem data "oil_pressure";
  mret [rpm; speed; throttle; brake; temp; oil].

(** Successive [MainDashScreen.update_display] calls, one snapshot each:
    the final [flash_counter]. *)
Fixpoint main_run (flash_counter : Z) (frames : list (gmap string Z)) : Z :=
  match frames with
  | [] => flash_counter
  | d :: ds => main_run (fst (MainDash_update_display flash_counter d)) ds
  end.

(** *** Spec-side description of the shift light bars *)

(** The number of lit lights at [rpm]: one per 125 rpm above 10000, at
    most [num_lights]. *)
Definition lit_count (rpm : Z) : nat := Z.to_nat (Z.min 10 (Z.max 0 ((rpm - 10000) / 125))).

(** The colour a lit light shows by its index from the left: green in the
    middle six, yellow next to them, red at both ends. *)
Definition zone_color (i : nat) : color :=
  if (2 <=? i)%nat && (i <=? 7)%nat then c_green
  else if (i =? 1)%nat || (i =? 8)%nat then c_yellow
  else c_red.

(** The bar as a centre-out fill: [k] lit lights are the indices
    [5 - (k + 1) / 2 .. 4 + k / 2]; all red when flashing. *)
Definition bar_pattern (off : color) (rpm : Z) (flash_state : bool) : list color :=
  if (11250 <=? rpm) && flash_state then repeat c_red num_lights
  else
    let k := lit_count rpm in
    map (fun i => if (5 - (k + 1) / 2 <=? i)%nat && (i <=? 4 + k / 2)%nat
                  then zone_color i else off) (seq 0 num_lights).

(** *** LapTimerScreen *)

(** Python's [f"{x:06.3f}"] for a double whose exact value is [x]: the
    value rounded to 3 decimals (ties to even, on the exact value), a
    minus sign for a negative value, and zeros inserted after the sign up
    to width 6. *)
Definition round_half_even (x : Q) : Z :=
  let m := Qfloor x in
  let frac := (x - inject_Z m)%Q in
  if Qlt_le_dec (1 # 2) frac then m + 1
  else if Qeq_dec frac (1 # 2) then (if Z.even m then m else m + 1)
  else m.

Definition zero_pad (width : nat) (s : string) : string :=
  String.append (String.string_of_list_ascii (repeat "0"%char (width - String.length s))) s.

Definition format_06_3f (x : Q) : string :=
  let neg := if Qlt_le_dec x 0 then true else false in
  let m := round_half_even (Qabs x * 1000) in
  let body := String.append (pretty (m / 1000))
                (String.append "." (zero_pad 3 (pretty (m mod 1000)))) in
  if neg then String.append "-" (zero_pad 5 body) else zero_pad 6 body.

(** [format_lap_time(seconds)]: [mins = int(seconds // 60)],
    [secs = seconds % 60]. For a double [0 <= seconds < 2^47] both are
    computed exactly ([%] is [fmod] and the floor quotient is an integer
    below 2^53), which is what [Qfloor] and the subtraction give. *)
Definition format_lap_time (seconds : Q) : string :=
  let mins := Qfloor (seconds / 60) in
  let secs := (seconds - inject_Z mins * 60)%Q in
  String.append (pretty mins) (String.append ":" (format_06_3f secs)).

(** The lap fields of the screen, [self.flash_counter], and the number of
    [time.time()] calls made so far. *)
Record lap_state := LapState {
  lap_flash_counter : Z; current_lap_start : Q; best_lap : Q; last_lap : Q; lap_clk : nat }.

Record lap_view := LapView {
  lv_lights : list color; lv_rpm : Z; lv_temp : Z; lv_current_time : string;
  lv_best : string; lv_last : string; lv_speed : Z; lv_gear : Z;
  lv_throttle : Z; lv_brake : Z }.

Section LapTimer.
(** The [k]-th call to [time.time()] returns [time_at k]; [fsub] is the
    double subtraction [time.time() - self.current_lap_start] (any
    rounding). *)
Variable time_at : nat -> Q.
Variable fsub : Q -> Q -> Q.

(** [LapTimerScreen.__init__]: [current_lap_start = time.time()],
    [best_lap = 65.432], [last_lap = 67.891]. *)
Definition lap_init : lap_state := LapState 0 (time_at O) 65.432 67.891 1.

(** [LapTimerScreen.update_display(dt)] on the snapshot [data]. *)
Definition LapTimer_update_display (ls : lap_state) (data : gmap string Z)
    : lap_state * (py_exn + lap_view) :=
  let '(fc, flash_state) := flash_tick (lap_flash_counter ls) in
  let ls1 := LapState fc (current_lap_start ls) (best_lap ls) (last_lap ls) (lap_clk ls) in
  let r :=
    rpm ← getitem data "rpm";
    speed ← getitem data "speed";
    throttle ← getitem data "throttle";
    brake ← getitem data "brake";
    temp ← getitem data "coolant_temp";
    lights ← ShiftLightBarCircular_update_lights rpm flash_state;
    mret (rpm, speed, throttle, brake, temp, lights) in
  match r with
  | inl e => (ls1, inl e)
  | inr (rpm, speed, throttle, brake, temp, lights) =>
      let elapsed := fsub (time_at (lap_clk ls)) (current_lap_start ls) in
      let k := S (lap_clk ls) in
      let cur := format_lap_time elapsed in
      let ls2 :=
        if Qlt_le_dec 70 elapsed then
          let best := if Qlt_le_dec elapsed (best_lap ls) then elapsed else best_lap ls in
          LapState fc (time_at k) best elapsed (S k)
        else LapState fc (current_lap_start ls) (best_lap ls) (last_lap ls) k in
      (ls2,
       inr (LapView lights rpm temp cur
              (String.append "BEST  " (format_lap_time (best_lap ls2)))
              (String.append "LAST  " (format_lap_time (last_lap ls2)))
              speed (gear_of_speed speed) throttle brake))
  end.

(** Successive calls of the 30 FPS [Clock] schedule, one snapshot each. *)
Fixpoint lap_run (ls : lap_state) (frames : list (gmap string Z)) : lap_state :=
  match frames with
  | [] => ls
  | d :: ds => lap_run (fst (LapTimer_update_display ls d)) ds
  end.

End LapTimer.

End Display.

(* ================================================================== *)
(** ** RaceDashApp: swipe navigation between screens *)

Module Nav.

Definition screens : list string := ["laptimer"; "main"; "sensors"; "settings"]%string.

(** [self.touch_start_x], [self.sm.current] and
    [self.sm.transition.direction]; touch positions in whole pixels. *)
Record nav := Nav { touch_start_x : Z; current : string; direction : string }.

Definition on_touch_down (x : Z) (n : nav) : nav := Nav x (current n) (direction n).

(** [on_touch_up]; [None] is the [ValueError] of [screens.index] (and the
    [IndexError] of [screens[new_idx]], which the modulo rules out). *)
Definition on_touch_up (x : Z) (n : nav) : option nav :=
  let swipe_distance := x - touch_start_x n in
  if 100 <? Z.abs swipe_distance then
    match Display.py_index (current n) screens with
    | None => None
    | Some current_idx =>
        let '(new_idx, dir) :=
          if 0 <? swipe_distance
          then ((Z.of_nat current_idx - 1) mod Z.of_nat (length screens), "right"%string)
          else ((Z.of_nat current_idx + 1) mod Z.of_nat (length screens), "left"%string) in
        match screens !! Z.to_nat new_idx with
        | Some s => Some (Nav (touch_start_x n) s dir)
        | None => None
        end
    end
  else Some n.

(** A touch going down at [x0] and up at [x1]. *)
Definition swipe (x0 x1 : Z) (n : nav) : option nav := on_touch_up x1 (on_touch_down x0 n).

End Nav.

(* ================================================================== *)
(** ** Start-up: command line, RaceDashApp.build *)

Module Startup.
Import Supervisor.

(** The configuration the [__main__] block stores in [RaceDashApp]. *)
Record cli := Cli { cli_simulate : bool; cli_serial_port : string; cli_baud_rate : Z }.

Definition cli_default : cli := Cli true "/dev/ttyUSB0" 115200.

Section Parse.
(** [int(s)] on a string: [None] is its [ValueError]. *)
Variable py_int : string -> option Z.

(** The [while i < len(args)] loop over [sys.argv[1:]]; [None] is the
    [ValueError] of [int(args[i + 1])]. *)
Fixpoint parse_args_from (args : list string) (c : cli) : option cli :=
  match args with
  | [] => Some c
  | a :: rest =>
      if bool_decide (a = "--serial"%string) then
        match rest with
        | p :: rest' =>
            if negb (String.prefix "--" p)
            then parse_args_from rest' (Cli false p (cli_baud_rate c))
            else parse_args_from rest (Cli false (cli_serial_port c) (cli_baud_rate c))
        | [] => Some (Cli false (cli_serial_port c) (cli_baud_rate c))
        end
      else if bool_decide (a = "--baud"%string) then
        match rest with
        | b :: rest' =>
            match py_int b with
            | Some z => parse_args_from rest' (Cli (cli_simulate c) (cli_serial_port c) z)
            | None => None
            end
        | [] => Some c
        end
      else if bool_decide (a = "--simulate"%string) then
        parse_args_from rest (Cli true (cli_serial_port c) (cli_baud_rate c))
      else parse_args_from rest c
  end.

Definition parse_args (args : list string) : option cli := parse_args_from args cli_default.

End Parse.

Inductive start_error := StartValueError | StartTypeError (key : string).

(** [RaceDashApp.build] up to the start of the threads, with [params] the
    parameter names of the [CANThread.__init__] it calls; [SensorThread]
    has the same [__init__(signal_buffer, simulate=True)]. On success: the
    started CAN and sensor threads. *)
Definition build (params : list string) (c : cli) : start_error + (worker * worker) :=
  match CANThread_new params
          [("simulate", PBool (cli_simulate c)); ("serial_port", PStr (cli_serial_port c));
           ("baud_rate", PInt (cli_baud_rate c))]%string with
  | inl (TypeError k) => inl (StartTypeError k)
  | inl RuntimeError => inl (StartTypeError "")
  | inr can =>
      match CANThread_new core_init_params [("simulate"%string, PBool true)] with
      | inl (TypeError k) => inl (StartTypeError k)
      | inl RuntimeError => inl (StartTypeError "")
      | inr sensor => inr (start can, start sensor)
      end
  end.

(** The [__main__] block: parse the arguments, then [RaceDashApp().run()],
    which calls [build]. *)
Definition main (py_int : string -> option Z) (params : list string) (args : list string)
    : start_error + (worker * worker) :=
  match parse_args py_int args with
  | None => inl StartValueError
  | Some c => build params c
  end.

End Startup.

(* ================================================================== *)
(** ** Spec-side notions on SignalBuffer histories *)

Module BufferSpec.
Import Buffer.

(** (timestamp, value) entries in nondecreasing timestamp order. *)
Definition ts_sorted (l : list (Z * Z)) : Prop :=
  forall (i j : nat) (x y : Z * Z), (i < j)%nat -> l !! i = Some x -> l !! j = Some y ->
    x.1 <= y.1.

(** A clock that never goes backwards. *)
Definition clock_monotone (clk0 : nat -> Z) : Prop :=
  forall i j : nat, (i <= j)%nat -> clk0 i <= clk0 j.

(** Every history is in timestamp order, and no entry is later than the
    next [time.time()] reading. *)
Definition hist_ok (st : sb_state) : Prop :=
  forall (c : string) (q : deque), history st !! c = Some q ->
    ts_sorted (dq_items q) /\ forall x, x ∈ dq_items q -> x.1 <= clock st (clk st).

End BufferSpec.

(* ================================================================== *)
(** * Proofs: simulated worker *)

Module SimProofs.
Import Sim.

Example sim_states_312 : sim_states 312 = SimState 13480 40.
Proof. vm_compute. reflexivity. Qed.
Example sim_states_313 : sim_states 313 = SimState 13500 (-40).
Proof. vm_compute. reflexivity. Qed.
Example sim_output_313 : sim_output 313 = SimOut 13500 135 0 0.
Proof. vm_compute. reflexivity. Qed.

Lemma sim_inv_init : sim_inv sim_init.
Proof. unfold sim_inv; simpl; lia. Qed.

Lemma sim_tick_state (s : sim_state) :
  fst (sim_tick s) =
  if 13500 <=? rpm s + rpm_direction s then SimState 13500 (-40)
  else if rpm s + rpm_direction s <=? 1000 then SimState 1000 40
  else SimState (rpm s + rpm_direction s) (rpm_direction s).
Proof.
  unfold sim_tick; simpl.
  destruct (13500 <=? _); [|destruct (_ <=? 1000)];
    destruct (0 <? _); reflexivity.
Qed.

Lemma sim_inv_tick (s : sim_state) : sim_inv s -> sim_inv (fst (sim_tick s)).
Proof.
  intros (Hb & Hd & Hhi & Hlo). rewrite sim_tick_state. simpl.
  destruct (13500 <=? _) eqn:E1; [unfold sim_inv; simpl; lia|].
  destruct (_ <=? 1000) eqn:E2; [unfold sim_inv; simpl; lia|].
  apply Z.leb_gt in E1, E2. unfold sim_inv; simpl; lia.
Qed.

Lemma sim_inv_states (n : nat) : sim_inv (sim_states n).
Proof.
  induction n as [|n IH]; [apply sim_inv_init|].
  simpl. by apply sim_inv_tick.
Qed.

Lemma py_int_div_nonneg (a b : Z) : 0 <= a -> 0 < b -> py_int_div a b = a / b.
Proof. intros. unfold py_int_div. apply Z.quot_div_nonneg; lia. Qed.

Lemma sim_tick_outputs (s : sim_state) :
  sim_inv s ->
  let s' := fst (sim_tick s) in
  let o := snd (sim_tick s) in
  out_rpm o = rpm s' /\
  (0 < rpm_direction s' ->
     out_throttle o = clamp 0 100 ((rpm s' - 1000) / 125) /\ out_brake o = 0) /\
  (rpm_direction s' < 0 ->
     out_throttle o = 0 /\ out_brake o = clamp 0 100 ((13500 - rpm s') / 125)) /\
  (rpm s' = 13500 -> out_throttle o = 0 /\ out_brake o = 0).
Proof.
  destruct s as [r d]. intros (Hb & Hd & Hhi & Hlo); simpl in *.
  unfold sim_tick, clamp; simpl.
  destruct (13500 <=? r + d) eqn:E1; [|destruct (r + d <=? 1000) eqn:E2];
    simpl; rewrite ?Z.leb_le, ?Z.leb_gt in *.
  - rewrite py_int_div_nonneg by lia. simpl.
    Z.div_mod_to_equations; lia.
  - rewrite py_int_div_nonneg by lia. simpl.
    rewrite ?py_int_div_nonneg by lia. simpl.
    Z.div_mod_to_equations; lia.
  - destruct (0 <? d) eqn:E3; simpl; rewrite ?Z.ltb_lt, ?Z.ltb_ge in *.
    + rewrite py_int_div_nonneg by lia.
      assert (0 <= (r + d - 1000) / 125) by (apply Z.div_pos; lia).
      repeat split; try lia.
    + rewrite py_int_div_nonneg by lia.
      assert (0 <= (13500 - (r + d)) / 125) by (apply Z.div_pos; lia).
      repeat split; try lia.
Qed.

(** C1 (as stated, peak part): at the tick where engine speed equals
    13500 the claim expects throttle = 100 and brake = 0; at iteration 313
    engine speed is 13500 and throttle is 0. *)
Lemma sim_peak_throttle_counterexample :
  ~ (forall n : nat, out_rpm (sim_output n) = 13500 ->
       out_throttle (sim_output n) = 100 /\ out_brake (sim_output n) = 0).
Proof.
  intros H. destruct (H 313%nat) as [Ht _]; [vm_compute; reflexivity|].
  vm_compute in Ht. discriminate.
Qed.

(** C1 (amended): at every iteration [S n], with "increasing" and
    "decreasing" read from [rpm_direction] as updated by that same
    iteration (after the reversal at a bound), throttle and brake follow
    the clamped formulas; at the peak iteration (rpm = 13500) the direction
    has already flipped, so throttle = 0 and brake = 0. *)
Theorem sim_throttle_brake (n : nat) :
  let s' := sim_states (S n) in
  let o := sim_output (S n) in
  out_rpm o = rpm s' /\
  (0 < rpm_direction s' ->
     out_throttle o = clamp 0 100 ((rpm s' - 1000) / 125) /\ out_brake o = 0) /\
  (rpm_direction s' < 0 ->
     out_throttle o = 0 /\ out_brake o = clamp 0 100 ((13500 - rpm s') / 125)) /\
  (rpm s' = 13500 -> out_throttle o = 0 /\ out_brake o = 0).
Proof.
  apply (sim_tick_outputs (sim_states n)), sim_inv_states.
Qed.

(** C2: from rpm 1000 with step 40, while the direction has stayed +40
    for the first K iterations, rpm = 1000 + 40*K; when rpm is >= 13500 the
    direction is -40 and the next iteration lowers rpm by 40; when rpm is
    <= 1000 the direction is +40 and the next iteration raises rpm by 40;
    rpm always stays within [1000, 13500]. *)
Theorem sim_rpm_triangle :
  (forall K : nat,
     (forall j : nat, (j <= K)%nat -> rpm_direction (sim_states j) = 40) ->
     rpm (sim_states K) = 1000 + 40 * Z.of_nat K) /\
  (forall k : nat, 13500 <= rpm (sim_states k) ->
     rpm_direction (sim_states k) = -40 /\
     rpm (sim_states (S k)) = rpm (sim_states k) - 40) /\
  (forall k : nat, rpm (sim_states k) <= 1000 ->
     rpm_direction (sim_states k) = 40 /\
     rpm (sim_states (S k)) = rpm (sim_states k) + 40) /\
  (forall k : nat, 1000 <= rpm (sim_states k) <= 13500).
Proof.
  split; [|split; [|split]].
  - induction K as [|K IH]; intros Hdir; [reflexivity|].
    assert (Hk : rpm (sim_states K) = 1000 + 40 * Z.of_nat K)
      by (apply IH; intros j Hj; apply Hdir; lia).
    assert (HdK : rpm_direction (sim_states K) = 40) by (apply Hdir; lia).
    assert (HdS : rpm_direction (sim_states (S K)) = 40) by (apply Hdir; lia).
    revert HdS. simpl. rewrite sim_tick_state. rewrite Hk, HdK.
    destruct (13500 <=? 1000 + 40 * Z.of_nat K + 40) eqn:E1; [simpl; lia|].
    destruct (1000 + 40 * Z.of_nat K + 40 <=? 1000) eqn:E2;
      [apply Z.leb_le in E2; lia|].
    simpl. lia.
  - intros k Hk. pose proof (sim_inv_states k) as (Hb & Hd & Hhi & Hlo).
    assert (Hr : rpm (sim_states k) = 13500) by lia.
    specialize (Hhi Hr). split; [exact Hhi|].
    simpl. rewrite sim_tick_state, Hr, Hhi. reflexivity.
  - intros k Hk. pose proof (sim_inv_states k) as (Hb & Hd & Hhi & Hlo).
    assert (Hr : rpm (sim_states k) = 1000) by lia.
    specialize (Hlo Hr). split; [exact Hlo|].
    simpl. rewrite sim_tick_state, Hr, Hlo. reflexivity.
  - intros k. apply sim_inv_states.
Qed.

End SimProofs.

(* ================================================================== *)
(** * Proofs: SignalBuffer *)

Module BufferProofs.
Import Buffer.

Example update_unknown_key :
  snd (update "gear" 3 (sb_new (fun n => Z.of_nat n))) = Some (KeyError "gear").
Proof. vm_compute. reflexivity. Qed.

Example get_history_after_one :
  get_history "rpm" None (fst (update "rpm" 5 (sb_new (fun n => Z.of_nat n))))
  = inr [(1, 5)].
Proof. vm_compute. reflexivity. Qed.

Lemma lookup_const_map {A} (x : A) (ks : list string) (k : string) :
  (list_to_map ((fun k => (k, x)) <$> ks) : gmap string A) !! k =
  if decide (k ∈ ks) then Some x else None.
Proof.
  induction ks as [|k0 ks IH].
  - rewrite fmap_nil, list_to_map_nil, lookup_empty, decide_False; [done|set_solver].
  - rewrite fmap_cons, list_to_map_cons, lookup_insert. destruct (decide (k0 = k)) as [->|Hne].
    + rewrite decide_True; [done|set_solver].
    + rewrite IH. destruct (decide (k ∈ ks)), (decide (k ∈ k0 :: ks)); set_solver.
Qed.

Lemma data_of_set_data (st : sb_state) (d : gmap string Z) :
  data_of (set_data st d) = d.
Proof. unfold data_of, set_data; simpl. by rewrite lookup_insert_eq. Qed.

(** The domain of [self.history] never changes. *)
Definition hist_dom_same (st st' : sb_state) : Prop :=
  forall k, is_Some (history st' !! k) <-> is_Some (history st !! k).

Lemma hist_dom_insert (h : gmap string deque) (k k' : string) (q q' : deque) :
  h !! k = Some q ->
  (is_Some (<[k := q']> h !! k') <-> is_Some (h !! k')).
Proof.
  intros Hk. destruct (decide (k = k')) as [->|Hne].
  - rewrite lookup_insert_eq, Hk. split; eauto.
  - by rewrite lookup_insert_ne.
Qed.

Lemma append_history_hist_dom (st : sb_state) (kv : string * Z) :
  hist_dom_same st (append_history st kv).
Proof.
  intros k'. unfold append_history.
  destruct (history st !! kv.1) as [q|] eqn:E; [|done].
  cbn [time_time set_history history]. by apply hist_dom_insert with q.
Qed.

Lemma update_hist_dom (k : string) (v : Z) (st : sb_state) :
  hist_dom_same st (fst (update k v st)).
Proof.
  intros k'. unfold update.
  change (history (stamp (set_value st (k, v)))) with (history st).
  destruct (history st !! k); cbn [fst]; [|done].
  apply (append_history_hist_dom (stamp (set_value st (k, v))) (k, v) k').
Qed.

Lemma foldl_append_hist_dom (u : list (string * Z)) (st : sb_state) :
  hist_dom_same st (foldl append_history st u).
Proof.
  revert st. induction u as [|kv u IH]; intros st k'; simpl; [done|].
  rewrite (IH _ k'). apply append_history_hist_dom.
Qed.

Lemma foldl_set_history (u : list (string * Z)) (st : sb_state) :
  history (foldl set_value st u) = history st.
Proof. revert st. induction u as [|kv u IH]; intros st; simpl; [done|]. by rewrite IH. Qed.

Lemma update_multiple_hist_dom (u : list (string * Z)) (st : sb_state) :
  hist_dom_same st (fst (update_multiple u st)).
Proof.
  intros k'. unfold update_multiple; simpl.
  rewrite (foldl_append_hist_dom _ _ k'). unfold stamp; simpl.
  by rewrite foldl_set_history.
Qed.

Lemma exec_hist_dom (o : op) (st : sb_state) : hist_dom_same st (exec o st).
Proof. destruct o; [apply update_hist_dom|apply update_multiple_hist_dom]. Qed.

Lemma run_hist_dom (ops : list op) (st : sb_state) : hist_dom_same st (run ops st).
Proof.
  revert st. induction ops as [|o ops IH]; intros st k; simpl; [done|].
  rewrite (IH (exec o st) k). apply exec_hist_dom.
Qed.

Lemma sb_new_hist_dom (ml : option nat) (clk0 : nat -> Z) (k : string) :
  is_Some (history (sb_new_with ml clk0) !! k) <-> k ∈ sb_keys.
Proof.
  unfold sb_new_with; cbn [history]. rewrite lookup_const_map.
  destruct (decide (k ∈ sb_keys)); split; eauto.
  - intros [? ?]; done.
  - done.
Qed.

Lemma run_hist_keys (clk0 : nat -> Z) (ops : list op) (k : string) :
  is_Some (history (run ops (sb_new clk0)) !! k) <-> k ∈ sb_keys.
Proof. rewrite (run_hist_dom _ _ k). apply sb_new_hist_dom. Qed.

Lemma update_error_iff (k : string) (v : Z) (st : sb_state) :
  snd (update k v st) = None <-> is_Some (history st !! k).
Proof.
  unfold update. change (history (stamp (set_value st (k, v)))) with (history st).
  destruct (history st !! k) eqn:E; cbn [snd].
  - split; eauto.
  - split; [discriminate|intros [? ?]; done].
Qed.

(** C4 (as stated): [update] raises for some key. *)
Lemma update_never_raises_counterexample :
  ~ (forall (k : string) (v : Z) (st : sb_state), snd (update k v st) = None).
Proof.
  intros H. specialize (H "gear"%string 3 (sb_new (fun _ => 0))).
  vm_compute in H. discriminate.
Qed.

(** C4 (amended): on any buffer reached from [SignalBuffer()] by
    update/update_multiple calls, [update_multiple] never raises;
    [update(key, value)] raises nothing exactly when [key] is one of the
    keys of [self.data] at construction (the six channels and
    [timestamp]), and raises [KeyError(key)] for any other key. *)
Theorem sb_update_errors (clk0 : nat -> Z) (ops : list op) :
  let st := run ops (sb_new clk0) in
  (forall u : list (string * Z), snd (update_multiple u st) = None) /\
  (forall (k : string) (v : Z), snd (update k v st) = None <-> k ∈ sb_keys) /\
  (forall (k : string) (v : Z), k ∉ sb_keys -> snd (update k v st) = Some (KeyError k)).
Proof.
  simpl. split; [|split].
  - intros u. reflexivity.
  - intros k v. rewrite update_error_iff. apply run_hist_keys.
  - intros k v Hk. unfold update.
    change (history (stamp (set_value ?st (k, v)))) with (history st).
    destruct (history (run ops (sb_new clk0)) !! k) eqn:E; cbn [snd]; [|done].
    exfalso. apply Hk, (run_hist_keys clk0 ops k). rewrite E. eauto.
Qed.

(** C5: [get_history(key, 0)] tests [if count:], which is false for 0,
    and returns the whole history. *)
Theorem get_history_count_zero :
  let st := fst (update "rpm" 5 (sb_new (fun n => Z.of_nat n))) in
  get_history "rpm" (Some 0) st = inr [(1, 5)] /\
  get_history "rpm" None st = inr [(1, 5)].
Proof. vm_compute. split; reflexivity. Qed.

Lemma data_of_set_history (st : sb_state) (h : gmap string deque) :
  data_of (set_history st h) = data_of st.
Proof. reflexivity. Qed.

Lemma append_history_fields (st : sb_state) (kv : string * Z) :
  clock (append_history st kv) = clock st /\
  data_ptr (append_history st kv) = data_ptr st /\
  next_loc (append_history st kv) = next_loc st /\
  heap (append_history st kv) = heap st.
Proof. unfold append_history. destruct (history st !! kv.1); done. Qed.

Lemma data_of_append_history (st : sb_state) (kv : string * Z) :
  data_of (append_history st kv) = data_of st.
Proof.
  unfold data_of. destruct (append_history_fields st kv) as (_ & -> & _ & ->).
  reflexivity.
Qed.

Lemma data_of_stamp (st : sb_state) :
  data_of (stamp st) = <["timestamp"%string := clock st (clk st)]> (data_of st).
Proof. unfold stamp. cbn [time_time]. by rewrite data_of_set_data. Qed.

Lemma update_data (k : string) (v : Z) (st : sb_state) :
  data_of (fst (update k v st)) =
  <["timestamp"%string := clock st (clk st)]> (<[k := v]> (data_of st)).
Proof.
  unfold update. destruct (history _ !! k); cbn [fst];
    rewrite ?data_of_append_history, data_of_stamp; unfold set_value;
    rewrite data_of_set_data; reflexivity.
Qed.

Lemma foldl_set_fields (u : list (string * Z)) (st : sb_state) :
  clock (foldl set_value st u) = clock st /\
  clk (foldl set_value st u) = clk st /\
  data_ptr (foldl set_value st u) = data_ptr st /\
  next_loc (foldl set_value st u) = next_loc st /\
  data_of (foldl set_value st u) = foldl (fun d kv => <[kv.1 := kv.2]> d) (data_of st) u /\
  (forall l, l <> data_ptr st -> heap (foldl set_value st u) !! l = heap st !! l).
Proof.
  revert st. induction u as [|kv u IH]; intros st; [done|]. simpl.
  destruct (IH (set_value st kv)) as (H1 & H2 & H3 & H4 & H5 & H6).
  rewrite H1, H2, H3, H4, H5.
  change (set_value st kv) with (set_data st (<[kv.1:=kv.2]> (data_of st))) in *.
  rewrite data_of_set_data. repeat split; try done.
  intros l Hl. rewrite H6 by done. cbn. by rewrite lookup_insert_ne by done.
Qed.

Lemma foldl_append_fields (u : list (string * Z)) (st : sb_state) :
  clock (foldl append_history st u) = clock st /\
  data_ptr (foldl append_history st u) = data_ptr st /\
  next_loc (foldl append_history st u) = next_loc st /\
  heap (foldl append_history st u) = heap st.
Proof.
  revert st. induction u as [|kv u IH]; intros st; [done|]. simpl.
  destruct (IH (append_history st kv)) as (H1 & H2 & H3 & H4).
  rewrite H1, H2, H3, H4. unfold append_history.
  destruct (history st !! kv.1); done.
Qed.

Lemma append_history_fields_foldl (u : list (string * Z)) (st : sb_state) :
  clock (foldl append_history st u) = clock st /\
  data_ptr (foldl append_history st u) = data_ptr st /\
  next_loc (foldl append_history st u) = next_loc st /\
  heap (foldl append_history st u) = heap st.
Proof. apply foldl_append_fields. Qed.

Lemma update_multiple_data (u : list (string * Z)) (st : sb_state) :
  data_of (fst (update_multiple u st)) =
  <["timestamp"%string := clock st (clk st)]>
    (foldl (fun d kv => <[kv.1 := kv.2]> d) (data_of st) u).
Proof.
  unfold update_multiple. cbn [fst].
  destruct (foldl_append_fields u (stamp (foldl set_value st u)))
    as (_ & H2 & _ & H4).
  destruct (foldl_set_fields u st) as (H1 & H1' & _ & _ & H5 & _).
  unfold data_of at 1. rewrite H2, H4. unfold stamp. cbn.
  rewrite lookup_insert_eq. cbn. rewrite H1, H1'. f_equal.
  exact H5.
Qed.

Lemma foldl_insert_lookup (c : string) (u : list (string * Z)) (d : gmap string Z) :
  foldl (fun d kv => <[kv.1 := kv.2]> d) d u !! c = foldl (last_write_step c) (d !! c) u.
Proof.
  revert d. induction u as [|kv u IH]; intros d; [done|]. simpl.
  rewrite IH. unfold last_write_step. f_equal.
  rewrite lookup_insert. destruct (decide (kv.1 = c)); done.
Qed.

Lemma run_get_lookup (c : string) (ops : list op) (st : sb_state) :
  c <> "timestamp"%string ->
  data_of (run ops st) !! c = foldl (last_write_op c) (data_of st !! c) ops.
Proof.
  intros Hc. revert st. induction ops as [|o ops IH]; intros st; [done|].
  unfold run; cbn [foldl]. fold (run ops (exec o st)).
  rewrite IH. f_equal. destruct o as [k v|u]; cbn [exec last_write_op].
  - rewrite update_data, lookup_insert_ne by congruence.
    rewrite lookup_insert. destruct (decide (k = c)); done.
  - rewrite update_multiple_data, lookup_insert_ne by congruence.
    apply foldl_insert_lookup.
Qed.

Lemma last_write_step_default (c : string) (u : list (string * Z)) (a b : option Z) :
  default 0 a = default 0 b ->
  default 0 (foldl (last_write_step c) a u) = default 0 (foldl (last_write_step c) b u).
Proof.
  revert a b. induction u as [|kv u IH]; intros a b Hab; [done|]. simpl.
  apply IH. unfold last_write_step. destruct (decide _); done.
Qed.

Lemma last_write_op_default (c : string) (ops : list op) (a b : option Z) :
  default 0 a = default 0 b ->
  default 0 (foldl (last_write_op c) a ops) = default 0 (foldl (last_write_op c) b ops).
Proof.
  revert a b. induction ops as [|o ops IH]; intros a b Hab; [done|]. simpl.
  apply IH. destruct o as [k v|u]; simpl.
  - destruct (decide _); done.
  - by apply last_write_step_default.
Qed.

Lemma sb_new_data (ml : option nat) (clk0 : nat -> Z) (c : string) :
  data_of (sb_new_with ml clk0) !! c = if decide (c ∈ sb_keys) then Some 0 else None.
Proof.
  unfold data_of, sb_new_with. cbn [heap data_ptr].
  rewrite lookup_singleton_eq. cbn [default]. apply lookup_const_map.
Qed.

(** C7: for every declared channel and every sequence of
    update/update_multiple calls from [SignalBuffer()], [get(channel)] is
    the value of the last write to that channel, and 0 when it was never
    written. *)
Theorem get_last_write (clk0 : nat -> Z) (ops : list op) (c : string) :
  c ∈ channels ->
  get c (run ops (sb_new clk0)) = default 0 (last_write c ops).
Proof.
  intros Hc. unfold get, last_write.
  rewrite run_get_lookup by (intros ->; vm_compute in Hc; set_solver).
  apply last_write_op_default. unfold sb_new. rewrite sb_new_data.
  rewrite decide_True; [done|]. unfold channels, sb_keys in *; set_solver.
Qed.

Lemma get_last_write_witness :
  "rpm"%string ∈ channels /\
  get "rpm" (run [OpUpdate "rpm" 7; OpUpdateMultiple [("speed", 3); ("rpm", 9)]]
               (sb_new (fun n => Z.of_nat n)))
  = default 0 (last_write "rpm" [OpUpdate "rpm" 7; OpUpdateMultiple [("speed", 3); ("rpm", 9)]]).
Proof.
  split; [constructor|].
  apply get_last_write. constructor.
Defined.

(** *** History ring: bounded view of an unbounded buffer *)

Lemma length_lastn {A} (n : nat) (l : list A) : length (lastn n l) = Nat.min n (length l).
Proof. unfold lastn. rewrite length_drop. lia. Qed.

Lemma tl_drop_1 {A} (l : list A) : tl l = drop 1 l.
Proof. by destruct l. Qed.

Lemma lastn_snoc {A} (n : nat) (w : list A) (x : A) :
  (0 < n)%nat ->
  lastn n (w ++ [x]) =
  (if (n <? length (lastn n w ++ [x]))%nat then tl (lastn n w ++ [x])
   else lastn n w ++ [x]).
Proof.
  intros Hn. rewrite length_app, length_lastn. cbn [length].
  unfold lastn. rewrite length_app. cbn [length].
  destruct (Nat.lt_ge_cases (length w) n) as [Hlt|Hge].
  - replace (length w - n)%nat with 0%nat by lia.
    replace (length w + 1 - n)%nat with 0%nat by lia.
    rewrite Nat.min_r by lia. rewrite (proj2 (Nat.ltb_ge _ _)) by lia.
    rewrite !drop_0. reflexivity.
  - rewrite Nat.min_l by lia. rewrite (proj2 (Nat.ltb_lt _ _)) by lia.
    rewrite tl_drop_1, <- drop_app_le by lia. rewrite drop_drop.
    f_equal. lia.
Qed.

Lemma dq_append_trunc (x : Z * Z) (q : deque) :
  dq_maxlen q = None -> dq_append x (trunc q) = trunc (dq_append x q).
Proof.
  destruct q as [ml l]. cbn [dq_maxlen]. intros ->.
  unfold trunc, dq_append. cbn [dq_items dq_maxlen].
  rewrite (lastn_snoc 100 l x) by lia.
  destruct (100 <? _)%nat; reflexivity.
Qed.

(** Every deque of the buffer has no [maxlen]. *)
Definition unbounded (st : sb_state) : Prop :=
  forall k q, history st !! k = Some q -> dq_maxlen q = None.

Lemma unbounded_insert (h : gmap string deque) (k : string) (x : Z * Z) (q : deque) k' q' :
  (forall k q, h !! k = Some q -> dq_maxlen q = None) ->
  h !! k = Some q ->
  <[k := dq_append x q]> h !! k' = Some q' -> dq_maxlen q' = None.
Proof.
  intros Hu Hk. rewrite lookup_insert. destruct (decide (k = k')).
  - intros [= <-]. unfold dq_append. by rewrite (Hu k q Hk).
  - apply Hu.
Qed.

Lemma append_history_bound (st : sb_state) (kv : string * Z) :
  unbounded st ->
  unbounded (append_history st kv) /\ append_history (bound st) kv = bound (append_history st kv).
Proof.
  intros Hu. unfold append_history. cbn [bound history]. rewrite lookup_fmap.
  destruct (history st !! kv.1) as [q|] eqn:E; cbn [fmap option_fmap option_map]; [|done].
  split.
  - intros k' q'. cbn. exact (unbounded_insert _ _ _ q k' q' Hu E).
  - unfold bound, set_history.
    cbn [heap data_ptr history clock clk next_loc time_time].
    rewrite fmap_insert, dq_append_trunc by eauto.
    reflexivity.
Qed.

Lemma foldl_append_bound (u : list (string * Z)) (st : sb_state) :
  unbounded st ->
  unbounded (foldl append_history st u) /\
  foldl append_history (bound st) u = bound (foldl append_history st u).
Proof.
  revert st. induction u as [|kv u IH]; intros st Hu; [done|]. cbn [foldl].
  destruct (append_history_bound st kv Hu) as [Hu' ->]. by apply IH.
Qed.

Lemma foldl_set_bound (u : list (string * Z)) (st : sb_state) :
  foldl set_value (bound st) u = bound (foldl set_value st u) /\
  history (foldl set_value st u) = history st.
Proof.
  revert st. induction u as [|kv u IH]; intros st; [done|]. cbn [foldl].
  exact (IH (set_value st kv)).
Qed.

Lemma exec_bound (o : op) (st : sb_state) :
  unbounded st -> unbounded (exec o st) /\ exec o (bound st) = bound (exec o st).
Proof.
  intros Hu. destruct o as [k v|u]; cbn [exec].
  - unfold update.
    change (stamp (set_value (bound st) (k, v)))
      with (bound (stamp (set_value st (k, v)))).
    assert (Hu3 : unbounded (stamp (set_value st (k, v)))) by exact Hu.
    remember (stamp (set_value st (k, v))) as st3 eqn:Est3.
    change (history (bound st3)) with (trunc <$> history st3).
    rewrite lookup_fmap.
    destruct (history st3 !! k) eqn:E; cbn [fmap option_fmap option_map fst].
    + apply (append_history_bound st3 (k, v) Hu3).
    + split; [exact Hu3|reflexivity].
  - unfold update_multiple. cbn [fst].
    destruct (foldl_set_bound u st) as [Hs Hh].
    rewrite Hs. change (stamp (bound (foldl set_value st u)))
      with (bound (stamp (foldl set_value st u))).
    apply foldl_append_bound. intros k q. unfold stamp; cbn. rewrite Hh. apply Hu.
Qed.

Lemma run_bound (ops : list op) (st : sb_state) :
  unbounded st -> run ops (bound st) = bound (run ops st).
Proof.
  revert st. induction ops as [|o ops IH]; intros st Hu; [done|].
  unfold run; cbn [foldl]. fold (run ops (exec o (bound st))). fold (run ops (exec o st)).
  destruct (exec_bound o st Hu) as [Hu' ->]. by apply IH.
Qed.

Lemma sb_new_bound (clk0 : nat -> Z) : sb_new clk0 = bound (sb_new_unbounded clk0).
Proof.
  unfold sb_new, sb_new_unbounded, sb_new_with, bound. cbn. f_equal.
Qed.

Lemma sb_new_unbounded_ok (clk0 : nat -> Z) : unbounded (sb_new_unbounded clk0).
Proof.
  intros k q. unfold sb_new_unbounded, sb_new_with. cbn [history].
  rewrite lookup_const_map. destruct (decide _); [intros [= <-]; done|done].
Qed.

(** C6: on any buffer reached from [SignalBuffer()] by update/update_multiple
    calls, every history deque holds at most 100 entries, and for every
    channel [get_history(c)] is the last 100 (timestamp, value) pairs of the
    write log of [c] (the same calls on deques without [maxlen]); after more
    than 100 writes it has exactly 100 entries. *)
Theorem history_bounded_fifo (clk0 : nat -> Z) (ops : list op) :
  let st := run ops (sb_new clk0) in
  let wl := run ops (sb_new_unbounded clk0) in
  (forall (c : string) (q : deque), history st !! c = Some q -> (length (dq_items q) <= 100)%nat) /\
  (forall c : string, c ∈ sb_keys ->
     get_history c None st = inr (lastn 100 (hist_items c wl)) /\
     ((100 < length (hist_items c wl))%nat ->
        length (lastn 100 (hist_items c wl)) = 100%nat)).
Proof.
  cbn zeta. rewrite sb_new_bound, run_bound by apply sb_new_unbounded_ok.
  split.
  - intros c q. cbn [bound history]. rewrite lookup_fmap.
    destruct (history _ !! c); cbn; [|done]. intros [= <-]. cbn.
    rewrite length_lastn. lia.
  - intros c Hc. split.
    + unfold get_history, hist_items. cbn [bound history]. rewrite lookup_fmap.
      pose proof (proj2 (run_hist_dom ops (sb_new_unbounded clk0) c)
                    (proj2 (sb_new_hist_dom None clk0 c) Hc)) as [q Hq].
      rewrite Hq. reflexivity.
    + intros Hlen. rewrite length_lastn. lia.
Qed.

(** *** Aliasing: [self.data] versus the snapshots of [get_all] *)

Lemma set_data_frame (st : sb_state) (d : gmap string Z) (l : loc) :
  l <> data_ptr st -> heap (set_data st d) !! l = heap st !! l.
Proof. intros Hl. cbn. by rewrite lookup_insert_ne by congruence. Qed.

Lemma exec_frame (o : op) (st : sb_state) :
  data_ptr (exec o st) = data_ptr st /\ next_loc (exec o st) = next_loc st /\
  (forall l, l <> data_ptr st -> heap (exec o st) !! l = heap st !! l).
Proof.
  destruct o as [k v|u]; cbn [exec].
  - unfold update. destruct (history _ !! k); cbn [fst];
      [destruct (append_history_fields (stamp (set_value st (k, v))) (k, v))
         as (_ & -> & -> & ->)|];
      unfold stamp, set_value; cbn [time_time]; (split; [done|split; [done|]]);
      intros l Hl; repeat (rewrite set_data_frame by (cbn; done); cbn [heap]);
      reflexivity.
  - unfold update_multiple. cbn [fst].
    destruct (append_history_fields_foldl u (stamp (foldl set_value st u)))
      as (_ & -> & -> & ->).
    destruct (foldl_set_fields u st) as (_ & _ & H3 & H4 & _ & H6).
    unfold stamp; cbn [time_time]. split; [exact H3|split; [exact H4|]].
    intros l Hl. rewrite set_data_frame by (cbn; congruence). cbn [heap]. by apply H6.
Qed.

Lemma run_frame (ops : list op) (st : sb_state) :
  data_ptr (run ops st) = data_ptr st /\ next_loc (run ops st) = next_loc st /\
  (forall l, l <> data_ptr st -> heap (run ops st) !! l = heap st !! l).
Proof.
  revert st. induction ops as [|o ops IH]; intros st; [done|].
  unfold run; cbn [foldl]. fold (run ops (exec o st)).
  destruct (exec_frame o st) as (H1 & H2 & H3).
  destruct (IH (exec o st)) as (H1' & H2' & H3').
  rewrite H1', H2', H1, H2. split; [done|split; [done|]].
  intros l Hl. rewrite H3' by congruence. by apply H3.
Qed.

Lemma lookup_insert_is_Some' (m : gmap string Z) (i j : string) (x : Z) :
  is_Some (m !! j) -> is_Some (<[i := x]> m !! j).
Proof. intros H. rewrite lookup_insert. by destruct (decide (i = j)). Qed.

Lemma foldl_insert_is_Some (u : list (string * Z)) (d : gmap string Z) (c : string) :
  is_Some (d !! c) -> is_Some (foldl (fun d kv => <[kv.1 := kv.2]> d) d u !! c).
Proof.
  revert d. induction u as [|kv u IH]; intros d H; [done|]. cbn [foldl].
  apply IH, lookup_insert_is_Some', H.
Qed.

Lemma exec_data_mono (o : op) (st : sb_state) (c : string) :
  is_Some (data_of st !! c) -> is_Some (data_of (exec o st) !! c).
Proof.
  intros H. destruct o as [k v|u]; cbn [exec].
  - rewrite update_data. by do 2 apply lookup_insert_is_Some'.
  - rewrite update_multiple_data. by apply lookup_insert_is_Some', foldl_insert_is_Some.
Qed.

Lemma run_data_mono (ops : list op) (st : sb_state) (c : string) :
  is_Some (data_of st !! c) -> is_Some (data_of (run ops st) !! c).
Proof.
  revert st. induction ops as [|o ops IH]; intros st H; [done|].
  unfold run; cbn [foldl]. fold (run ops (exec o st)).
  by apply IH, exec_data_mono.
Qed.

Lemma sb_new_layout (clk0 : nat -> Z) (ops : list op) :
  data_ptr (run ops (sb_new clk0)) = 1%positive /\
  next_loc (run ops (sb_new clk0)) = 2%positive.
Proof. destruct (run_frame ops (sb_new clk0)) as (-> & -> & _). done. Qed.

(** C8: [get_all()] returns a new dict object holding the full current
    mapping (every key of [self.data] at construction is present); later
    update/update_multiple calls only mutate [self.data], so the returned
    snapshot keeps its contents. *)
Theorem get_all_snapshot_independent (clk0 : nat -> Z) (ops0 ops1 : list op) :
  let st := run ops0 (sb_new clk0) in
  let st1 := fst (get_all st) in
  let l := snd (get_all st) in
  l <> data_ptr st1 /\
  heap st1 !! l = Some (data_of st) /\
  data_of st1 = data_of st /\
  (forall c, c ∈ sb_keys -> is_Some (data_of st !! c)) /\
  heap (run ops1 st1) !! l = Some (data_of st).
Proof.
  cbn zeta. destruct (sb_new_layout clk0 ops0) as [Hp Hn].
  assert (Hl : snd (get_all (run ops0 (sb_new clk0))) <>
               data_ptr (fst (get_all (run ops0 (sb_new clk0)))))
    by (cbn; rewrite Hp, Hn; done).
  split; [exact Hl|]. split; [cbn; apply lookup_insert_eq|].
  split; [unfold data_of; cbn; rewrite lookup_insert_ne by (rewrite Hp, Hn; done);
          reflexivity|].
  split.
  - intros c Hc. apply run_data_mono. unfold sb_new. rewrite sb_new_data.
    rewrite decide_True by done. eauto.
  - destruct (run_frame ops1 (fst (get_all (run ops0 (sb_new clk0))))) as (_ & _ & H3).
    rewrite H3 by exact Hl. cbn. apply lookup_insert_eq.
Qed.

(** *** Keys outside the declared set *)

Lemma run_app (ops1 ops2 : list op) (st : sb_state) :
  run (ops1 ++ ops2) st = run ops2 (run ops1 st).
Proof. unfold run. apply foldl_app. Qed.

Lemma last_write_step_is_Some (c : string) (u : list (string * Z)) (a : option Z) :
  is_Some a -> is_Some (foldl (last_write_step c) a u).
Proof.
  revert a. induction u as [|kv u IH]; intros a H; [done|]. cbn [foldl].
  apply IH. unfold last_write_step. destruct (decide _); eauto.
Qed.

Lemma last_write_step_elem (c : string) (v : Z) (u : list (string * Z)) (a : option Z) :
  (c, v) ∈ u -> is_Some (foldl (last_write_step c) a u).
Proof.
  revert a. induction u as [|kv u IH]; intros a H; [set_solver|]. cbn [foldl].
  apply elem_of_cons in H as [<-|H].
  - apply last_write_step_is_Some. unfold last_write_step. cbn. rewrite decide_True; eauto.
  - by apply IH.
Qed.

(** C10: a mapping with a key [k] outside the declared keys: [update_multiple]
    raises nothing and stores [k] in [self.data], so every later snapshot
    returned by [get_all] has [k], while no history deque for [k] exists
    then or later; [update(k, v)] raises [KeyError(k)] after storing [v]
    and refreshing the timestamp, with the history unchanged. *)
Theorem unknown_key_asymmetry (clk0 : nat -> Z) (ops0 : list op)
    (u : list (string * Z)) (k : string) (v : Z) :
  k ∉ sb_keys -> (k, v) ∈ u ->
  let st := run ops0 (sb_new clk0) in
  snd (update_multiple u st) = None /\
  (forall ops : list op,
     let st2 := run ops (fst (update_multiple u st)) in
     history st2 !! k = None /\
     exists d, heap (fst (get_all st2)) !! snd (get_all st2) = Some d /\
               is_Some (d !! k)) /\
  snd (update k v st) = Some (KeyError k) /\
  data_of (fst (update k v st)) =
    <["timestamp"%string := clock st (clk st)]> (<[k := v]> (data_of st)) /\
  history (fst (update k v st)) = history st.
Proof.
  intros Hk Hu. cbn zeta.
  assert (Hts : k <> "timestamp"%string) by (intros ->; apply Hk; by right; right; right; right; right; right; left).
  split; [reflexivity|]. split.
  - intros ops. split.
    + change (fst (update_multiple u (run ops0 (sb_new clk0))))
        with (run [OpUpdateMultiple u] (run ops0 (sb_new clk0))).
      rewrite <- !run_app.
      destruct (history (run (ops0 ++ [OpUpdateMultiple u] ++ ops) (sb_new clk0)) !! k)
        eqn:E; [|done].
      exfalso. apply Hk, (run_hist_keys clk0 (ops0 ++ [OpUpdateMultiple u] ++ ops) k).
      rewrite E. eauto.
    + exists (data_of (run ops (fst (update_multiple u (run ops0 (sb_new clk0)))))).
      split; [unfold get_all; cbn [fst snd heap]; apply lookup_insert_eq|].
      apply run_data_mono. rewrite update_multiple_data.
      apply lookup_insert_is_Some'. rewrite foldl_insert_lookup.
      by apply last_write_step_elem with v.
  - split; [|split].
      exact (proj2 (proj2 (sb_update_errors clk0 ops0)) k v Hk).
    + apply update_data.
    + unfold update.
      change (history (stamp (set_value ?st (k, v)))) with (history st).
      destruct (history (run ops0 (sb_new clk0)) !! k) eqn:E; cbn [fst]; [|done].
      exfalso. apply Hk, (run_hist_keys clk0 ops0 k). rewrite E. eauto.
Qed.

Lemma unknown_key_asymmetry_witness :
  (("gear"%string ∉ sb_keys) /\ (("gear"%string, 1) ∈ [("gear"%string, 1)])) /\
  (let st := run [] (sb_new (fun n => Z.of_nat n)) in
   snd (update_multiple [("gear"%string, 1)] st) = None /\
   (forall ops : list op,
      let st2 := run ops (fst (update_multiple [("gear"%string, 1)] st)) in
      history st2 !! "gear"%string = None /\
      exists d, heap (fst (get_all st2)) !! snd (get_all st2) = Some d /\
                is_Some (d !! "gear"%string)) /\
   snd (update "gear" 1 st) = Some (KeyError "gear") /\
   data_of (fst (update "gear" 1 st)) =
     <["timestamp"%string := clock st (clk st)]> (<["gear"%string := 1]> (data_of st)) /\
   history (fst (update "gear" 1 st)) = history st).
Proof.
  assert (Hk : "gear"%string ∉ sb_keys)
    by (apply (bool_decide_unpack _); vm_compute; reflexivity).
  assert (Hu : ("gear"%string, 1) ∈ [("gear"%string, 1)]) by constructor.
  split; [split; assumption|].
  exact (unknown_key_asymmetry (fun n => Z.of_nat n) [] [("gear"%string, 1)] "gear" 1 Hk Hu).
Defined.

End BufferProofs.

(* ================================================================== *)
(** * Proofs: restart *)

Module SupervisorProofs.
Import Supervisor.

Lemma running_count_replace (l : list worker) (i : nat) (w w' : worker) :
  l !! i = Some w -> w_state w = Running -> w_state w' <> Running ->
  (running_count (<[i := w']> (alter stop i l)) + 1 = running_count l)%nat.
Proof.
  revert i. induction l as [|x l IH]; intros [|i] Hi Hw Hw'; simpl in Hi; try discriminate.
  - injection Hi as ->. simpl. rewrite Hw. simpl.
    destruct (w_state w') eqn:E; simpl; try congruence; lia.
  - simpl. specialize (IH i Hi Hw Hw'). change (list_alter stop i l) with (alter stop i l). lia.
Qed.

(** C3: whenever [app_ref.can_thread] is a Running thread,
    [_apply_settings] stops it and joins it, then calls [CANThread(...,
    serial_port=..., baud_rate=...)], which the core's
    [__init__(signal_buffer, simulate=True)] rejects with
    [TypeError('serial_port')]: no new thread is created, the old one is
    StopRequested or Stopped, and one Running thread fewer remains, whether
    or not the old one stopped within the timeout. From a single Running
    thread no Running thread is left. *)
Theorem apply_settings_type_error (stops_in_time : bool) (a : app) (w0 : worker) :
  workers a !! can_thread a = Some w0 -> w_state w0 = Running ->
  snd (apply_settings core_init_params stops_in_time a) = Some (TypeError "serial_port") /\
  length (workers (fst (apply_settings core_init_params stops_in_time a))) =
    length (workers a) /\
  workers (fst (apply_settings core_init_params stops_in_time a)) !! can_thread a =
    Some (Worker (w_simulate w0) (if stops_in_time then Stopped else StopRequested)) /\
  (running_count (workers (fst (apply_settings core_init_params stops_in_time a))) + 1 =
    running_count (workers a))%nat.
Proof.
  intros Hw0 Hrun. destruct w0 as [sim0 st0]. cbn in Hrun. subst st0.
  assert (Hlt : (can_thread a < length (workers a))%nat)
    by (apply lookup_lt_is_Some; eauto).
  unfold apply_settings. rewrite list_lookup_alter_eq, Hw0. cbn [fmap option_fmap option_map].
  set (w' := Worker sim0 (if stops_in_time then Stopped else StopRequested)).
  assert (Hj : join stops_in_time (stop (Worker sim0 Running)) = inr w')
    by (unfold w'; destruct stops_in_time; reflexivity).
  rewrite Hj.
  assert (Hc : CANThread_new core_init_params
                 [("simulate", PBool (simulate a)); ("serial_port", PStr (serial_port a));
                  ("baud_rate", PInt (baud_rate a))]%string = inl (TypeError "serial_port"))
    by reflexivity.
  rewrite Hc. cbn [snd fst workers w_simulate].
  split; [reflexivity|]. split; [by rewrite length_insert, length_alter|].
  split; [by rewrite list_lookup_insert_eq by (rewrite length_alter; lia)|].
  apply (running_count_replace _ _ _ _ Hw0); [done|]. unfold w'. by destruct stops_in_time.
Qed.

Lemma apply_settings_type_error_witness :
  workers app0 !! can_thread app0 = Some (Worker true Running) /\
  snd (apply_settings core_init_params false app0) = Some (TypeError "serial_port") /\
  length (workers (fst (apply_settings core_init_params false app0))) = length (workers app0) /\
  workers (fst (apply_settings core_init_params false app0)) !! can_thread app0 =
    Some (Worker (w_simulate (Worker true Running)) (if false then Stopped else StopRequested)) /\
  (running_count (workers (fst (apply_settings core_init_params false app0))) + 1 =
    running_count (workers app0))%nat.
Proof.
  assert (H : workers app0 !! can_thread app0 = Some (Worker true Running)) by reflexivity.
  split; [exact H|]. exact (apply_settings_type_error false app0 _ H eq_refl).
Defined.

Lemma running_count_app (l1 l2 : list worker) :
  running_count (l1 ++ l2) = (running_count l1 + running_count l2)%nat.
Proof. induction l1 as [|w l1 IH]; cbn; [done|]. rewrite IH. lia. Qed.

Lemma running_count_zero (l : list worker) :
  (forall (j : nat) (w : worker), l !! j = Some w -> w_state w <> Running) ->
  running_count l = O.
Proof.
  induction l as [|w l IH]; intros H; [done|]. cbn.
  rewrite IH by (intros j w' Hj; exact (H (S j) w' Hj)).
  specialize (H 0%nat w eq_refl). destruct (w_state w); cbn; done.
Qed.

(** With an [__init__] that accepts the keyword arguments the method
    passes, a restart from one Running thread ends with exactly one Running
    thread, the new one, whether or not the old thread stopped in time:
    only the signature mismatch breaks the restart. *)
Lemma apply_settings_matching_init (params : list string) (stops_in_time : bool)
    (a : app) (w0 : worker) :
  "simulate"%string ∈ params -> "serial_port"%string ∈ params ->
  "baud_rate"%string ∈ params ->
  workers a !! can_thread a = Some w0 -> w_state w0 = Running ->
  (forall (j : nat) (w : worker), workers a !! j = Some w -> j <> can_thread a ->
     w_state w <> Running) ->
  snd (apply_settings params stops_in_time a) = None /\
  running_count (workers (fst (apply_settings params stops_in_time a))) = 1%nat /\
  workers (fst (apply_settings params stops_in_time a))
    !! can_thread (fst (apply_settings params stops_in_time a))
  = Some (Worker (simulate a) Running).
Proof.
  intros Hs Hp Hb Hw0 Hrun Hothers. destruct w0 as [sim0 st0]. cbn in Hrun. subst st0.
  assert (Hlt : (can_thread a < length (workers a))%nat)
    by (apply lookup_lt_is_Some; eauto).
  unfold apply_settings. rewrite list_lookup_alter_eq, Hw0. cbn [fmap option_fmap option_map].
  set (w' := if stops_in_time then Worker sim0 Stopped else Worker sim0 StopRequested).
  assert (Hj : join stops_in_time (stop (Worker sim0 Running)) = inr w')
    by (unfold w'; destruct stops_in_time; reflexivity).
  rewrite Hj.
  assert (Hnew : CANThread_new params
      [("simulate", PBool (simulate a)); ("serial_port", PStr (serial_port a));
       ("baud_rate", PInt (baud_rate a))]%string = inr (Worker (simulate a) Created)).
  { unfold CANThread_new. cbn [List.find fst].
    rewrite (bool_decide_eq_true_2 _ Hs), (bool_decide_eq_true_2 _ Hp),
      (bool_decide_eq_true_2 _ Hb). reflexivity. }
  rewrite Hnew. cbn [snd fst workers can_thread]. split; [done|]. split.
  - rewrite running_count_app. cbn.
    rewrite running_count_zero; [done|].
    intros j w Hjw. destruct (decide (j = can_thread a)) as [->|Hne].
    + rewrite list_lookup_insert_eq in Hjw by (rewrite length_alter; lia).
      injection Hjw as <-. unfold w'. destruct stops_in_time; cbn; done.
    + rewrite list_lookup_insert_ne, list_lookup_alter_ne in Hjw by congruence.
      exact (Hothers j w Hjw Hne).
  - apply list_lookup_middle. reflexivity.
Qed.

End SupervisorProofs.

(* ================================================================== *)
(** * Proofs: concurrent writers and readers *)

Module ConcurrentProofs.
Import Buffer BufferProofs Concurrent.

Lemma sb_equiv_refl (s : sb_state) : sb_equiv s s.
Proof. done. Qed.

Lemma sb_equiv_trans (s1 s2 s3 : sb_state) :
  sb_equiv s1 s2 -> sb_equiv s2 s3 -> sb_equiv s1 s3.
Proof. intros (?&?&?&?) (?&?&?&?). repeat split; congruence. Qed.

Lemma sb_equiv_set_value (s1 s2 : sb_state) (kv : string * Z) :
  sb_equiv s1 s2 -> sb_equiv (set_value s1 kv) (set_value s2 kv).
Proof.
  intros (Hd & Hh & Hc & Hk). unfold sb_equiv, set_value.
  rewrite !data_of_set_data, Hd. repeat split; cbn; congruence.
Qed.

Lemma sb_equiv_stamp (s1 s2 : sb_state) :
  sb_equiv s1 s2 -> sb_equiv (stamp s1) (stamp s2).
Proof.
  intros (Hd & Hh & Hc & Hk). unfold sb_equiv.
  split; [rewrite !data_of_stamp; congruence|].
  unfold stamp; cbn; repeat split; congruence.
Qed.

Lemma sb_equiv_append_history (s1 s2 : sb_state) (kv : string * Z) :
  sb_equiv s1 s2 -> sb_equiv (append_history s1 kv) (append_history s2 kv).
Proof.
  intros (Hd & Hh & Hc & Hk). unfold sb_equiv.
  split; [rewrite !data_of_append_history; done|].
  unfold append_history. rewrite Hh.
  destruct (history s2 !! kv.1); cbn; [|done]. repeat split; congruence.
Qed.

Lemma sb_equiv_foldl_set (u : list (string * Z)) (s1 s2 : sb_state) :
  sb_equiv s1 s2 -> sb_equiv (foldl set_value s1 u) (foldl set_value s2 u).
Proof.
  revert s1 s2. induction u as [|kv u IH]; intros s1 s2 H; [done|].
  cbn [foldl]. by apply IH, sb_equiv_set_value.
Qed.

Lemma sb_equiv_foldl_append (u : list (string * Z)) (s1 s2 : sb_state) :
  sb_equiv s1 s2 -> sb_equiv (foldl append_history s1 u) (foldl append_history s2 u).
Proof.
  revert s1 s2. induction u as [|kv u IH]; intros s1 s2 H; [done|].
  cbn [foldl]. by apply IH, sb_equiv_append_history.
Qed.

Lemma sb_equiv_update_multiple (b : list (string * Z)) (s1 s2 : sb_state) :
  sb_equiv s1 s2 -> sb_equiv (fst (update_multiple b s1)) (fst (update_multiple b s2)).
Proof.
  intros H. unfold update_multiple; cbn [fst].
  by apply sb_equiv_foldl_append, sb_equiv_stamp, sb_equiv_foldl_set.
Qed.

Lemma serial_snoc (bs : list (list (string * Z))) (b : list (string * Z)) (st : sb_state) :
  serial (bs ++ [b]) st = fst (update_multiple b (serial bs st)).
Proof. unfold serial. rewrite fmap_app, run_app. reflexivity. Qed.

Lemma get_all_equiv (s : sb_state) :
  data_ptr s <> next_loc s -> sb_equiv (fst (get_all s)) s.
Proof.
  intros H. split; [|done]. unfold data_of, get_all; cbn.
  by rewrite lookup_insert_ne by congruence.
Qed.

Lemma layout_set_value (s : sb_state) (kv : string * Z) :
  data_ptr (set_value s kv) = data_ptr s /\ next_loc (set_value s kv) = next_loc s.
Proof. done. Qed.

Lemma layout_stamp (s : sb_state) :
  data_ptr (stamp s) = data_ptr s /\ next_loc (stamp s) = next_loc s.
Proof. done. Qed.

Lemma layout_append_history (s : sb_state) (kv : string * Z) :
  data_ptr (append_history s kv) = data_ptr s /\ next_loc (append_history s kv) = next_loc s.
Proof. destruct (append_history_fields s kv) as (_ & ? & ? & _). done. Qed.

Lemma thread_insert_lookup (ts : list pc) (i j : nat) (p p0 : pc) :
  ts !! i = Some p0 ->
  <[i := p]> ts !! j = if decide (i = j) then Some p else ts !! j.
Proof.
  intros Hi. destruct (decide (i = j)) as [<-|Hne].
  - apply list_lookup_insert_eq. apply lookup_lt_Some with p0. exact Hi.
  - by apply list_lookup_insert_ne.
Qed.

Lemma inv_owner (st0 : sb_state) (c : cfg) (i : nat) (p : pc) :
  inv st0 c -> threads c !! i = Some p -> ~ idle p -> lock c = Some i.
Proof.
  intros (_ & _ & Hl) Hi Hp. destruct (lock c) as [i'|].
  - destruct Hl as [Hoth _]. destruct (decide (i = i')) as [->|Hne]; [done|].
    exfalso. exact (Hp (Hoth i p Hi Hne)).
  - destruct Hl as [Hall _]. exfalso. exact (Hp (Hall i p Hi)).
Qed.

Lemma obs_snoc (st0 : sb_state) (cm : list (list (string * Z)))
    (ob : list (nat * gmap string Z)) (b : list (string * Z)) :
  (forall (n : nat) (d : gmap string Z), (n, d) ∈ ob ->
     (n <= length cm)%nat /\ d = data_of (serial (take n cm) st0)) ->
  (forall (n : nat) (d : gmap string Z), (n, d) ∈ ob ->
     (n <= length (cm ++ [b]))%nat /\ d = data_of (serial (take n (cm ++ [b])) st0)).
Proof.
  intros H n d Hin. destruct (H n d Hin) as [Hn Hd]. split.
  - rewrite length_app. lia.
  - by rewrite take_app_le.
Qed.

(** A step of the lock owner inside a method body. *)
Lemma inv_inside (st0 : sb_state) (c : cfg) (i : nat) (p p' : pc) (sb' : sb_state) :
  inv st0 c -> threads c !! i = Some p -> ~ idle p ->
  (data_ptr sb' < next_loc sb')%positive ->
  (match p' with
   | WSet b rest bs =>
       sb_equiv (finish (WSet b rest bs) sb') (serial (committed c ++ [b]) st0)
   | WStamp b bs =>
       sb_equiv (finish (WStamp b bs) sb') (serial (committed c ++ [b]) st0)
   | WAppend b rest bs =>
       sb_equiv (finish (WAppend b rest bs) sb') (serial (committed c ++ [b]) st0)
   | RCopy _ | RRelease _ => sb_equiv sb' (serial (committed c) st0)
   | _ => False
   end) ->
  inv st0 (Cfg sb' (lock c) (<[i := p']> (threads c)) (committed c) (observed c)).
Proof.
  intros Hinv Hi Hp Hpos Hp'. pose proof (inv_owner st0 c i p Hinv Hi Hp) as Hlock.
  destruct Hinv as (_ & Hobs & Hl). rewrite Hlock in Hl. destruct Hl as [Hoth _].
  split; [exact Hpos|]. split; [exact Hobs|]. cbn [lock threads sbuf committed].
  rewrite Hlock. split.
  - intros j q Hj Hne. rewrite (thread_insert_lookup _ i j p' p Hi) in Hj.
    rewrite decide_False in Hj by congruence. exact (Hoth j q Hj Hne).
  - rewrite (thread_insert_lookup _ i i p' p Hi), decide_True by done. exact Hp'.
Qed.

Lemma inv_step (st0 : sb_state) (c c' : cfg) : step c c' -> inv st0 c -> inv st0 c'.
Proof.
  destruct 1 as [c i b bs Hi Hl | c i b kv rest bs Hi | c i b bs Hi | c i b bs Hi
                | c i b kv rest bs Hi | c i b bs Hi | c i n Hi Hl | c i n Hi | c i n Hi];
    intros Hinv.
  - (* writer acquires the lock *)
    destruct Hinv as (Hpos & Hobs & Hlk). rewrite Hl in Hlk. destruct Hlk as [Hall Heq].
    split; [exact Hpos|]. split; [exact Hobs|]. cbn [lock threads sbuf committed]. split.
    + intros j q Hj Hne. rewrite (thread_insert_lookup _ i j _ _ Hi) in Hj.
      rewrite decide_False in Hj by congruence. exact (Hall j q Hj).
    + rewrite (thread_insert_lookup _ i i _ _ Hi), decide_True by done.
      rewrite serial_snoc. by apply sb_equiv_update_multiple.
  - (* self.data[key] = value *)
    apply (inv_inside st0 c i (WSet b (kv :: rest) bs)); [done|done|cbn; tauto| |].
    + destruct Hinv as (Hpos & _). exact Hpos.
    + pose proof (inv_owner st0 c i _ Hinv Hi ltac:(cbn; tauto)) as Hlock.
      destruct Hinv as (_ & _ & Hlk). rewrite Hlock, Hi in Hlk. exact (proj2 Hlk).
  - (* end of the first loop *)
    apply (inv_inside st0 c i (WSet b [] bs)); [done|done|cbn; tauto| |].
    + destruct Hinv as (Hpos & _). exact Hpos.
    + pose proof (inv_owner st0 c i _ Hinv Hi ltac:(cbn; tauto)) as Hlock.
      destruct Hinv as (_ & _ & Hlk). rewrite Hlock, Hi in Hlk. exact (proj2 Hlk).
  - (* self.data['timestamp'] = time.time() *)
    apply (inv_inside st0 c i (WStamp b bs)); [done|done|cbn; tauto| |].
    + destruct Hinv as (Hpos & _). exact Hpos.
    + pose proof (inv_owner st0 c i _ Hinv Hi ltac:(cbn; tauto)) as Hlock.
      destruct Hinv as (_ & _ & Hlk). rewrite Hlock, Hi in Hlk. exact (proj2 Hlk).
  - (* history append *)
    apply (inv_inside st0 c i (WAppend b (kv :: rest) bs)); [done|done|cbn; tauto| |].
    + destruct Hinv as (Hpos & _). destruct (layout_append_history (sbuf c) kv) as [-> ->].
      exact Hpos.
    + pose proof (inv_owner st0 c i _ Hinv Hi ltac:(cbn; tauto)) as Hlock.
      destruct Hinv as (_ & _ & Hlk). rewrite Hlock, Hi in Hlk. exact (proj2 Hlk).
  - (* writer releases the lock: update_multiple returns *)
    pose proof (inv_owner st0 c i _ Hinv Hi ltac:(cbn; tauto)) as Hlock.
    destruct Hinv as (Hpos & Hobs & Hlk). rewrite Hlock, Hi in Hlk. destruct Hlk as [Hoth Heq].
    split; [exact Hpos|]. split; [by apply obs_snoc|]. cbn [lock threads sbuf committed]. split.
    + intros j q Hj. rewrite (thread_insert_lookup _ i j _ _ Hi) in Hj.
      destruct (decide (i = j)) as [->|Hne]; [injection Hj as <-; done|].
      exact (Hoth j q Hj (not_eq_sym Hne)).
    + exact Heq.
  - (* reader acquires the lock *)
    destruct Hinv as (Hpos & Hobs & Hlk). rewrite Hl in Hlk. destruct Hlk as [Hall Heq].
    split; [exact Hpos|]. split; [exact Hobs|]. cbn [lock threads sbuf committed]. split.
    + intros j q Hj Hne. rewrite (thread_insert_lookup _ i j _ _ Hi) in Hj.
      rewrite decide_False in Hj by congruence. exact (Hall j q Hj).
    + rewrite (thread_insert_lookup _ i i _ _ Hi), decide_True by done. exact Heq.
  - (* return self.data.copy() *)
    pose proof (inv_owner st0 c i _ Hinv Hi ltac:(cbn; tauto)) as Hlock.
    destruct Hinv as (Hpos & Hobs & Hlk). rewrite Hlock, Hi in Hlk. destruct Hlk as [Hoth Heq].
    assert (Hne : data_ptr (sbuf c) <> next_loc (sbuf c)) by (intros E; rewrite E in Hpos; lia).
    split; [cbn; lia|]. split.
    + intros n' d Hin. cbn [observed committed] in Hin |- *.
      apply elem_of_app in Hin as [Hin|Hin]; [exact (Hobs n' d Hin)|].
      apply list_elem_of_singleton in Hin. injection Hin as -> ->.
      split; [done|]. rewrite take_ge by done.
      unfold get_all; cbn. rewrite lookup_insert_eq. cbn. exact (proj1 Heq).
    + cbn [lock threads sbuf committed]. rewrite Hlock. split.
      * intros j q Hj Hne'. rewrite (thread_insert_lookup _ i j _ _ Hi) in Hj.
        rewrite decide_False in Hj by congruence. exact (Hoth j q Hj Hne').
      * rewrite (thread_insert_lookup _ i i _ _ Hi), decide_True by done.
        exact (sb_equiv_trans _ _ _ (get_all_equiv _ Hne) Heq).
  - (* reader releases the lock *)
    pose proof (inv_owner st0 c i _ Hinv Hi ltac:(cbn; tauto)) as Hlock.
    destruct Hinv as (Hpos & Hobs & Hlk). rewrite Hlock, Hi in Hlk. destruct Hlk as [Hoth Heq].
    split; [exact Hpos|]. split; [exact Hobs|]. cbn [lock threads sbuf committed]. split.
    + intros j q Hj. rewrite (thread_insert_lookup _ i j _ _ Hi) in Hj.
      destruct (decide (i = j)) as [->|Hne]; [injection Hj as <-; done|].
      exact (Hoth j q Hj (not_eq_sym Hne)).
    + exact Heq.
Qed.

Lemma sched_step_sound (c c' : cfg) (i : nat) : sched_step c i = Some c' -> step c c'.
Proof.
  unfold sched_step. destruct (threads c !! i) as [p|] eqn:E; [|discriminate].
  destruct p as [[|b bs]|b [|kv rest] bs|b bs|b [|kv rest] bs|[|n]|n|n];
    try discriminate.
  - destruct (lock c) eqn:L; [discriminate|]. intros [= <-]. by apply step_w_acquire.
  - intros [= <-]. by apply step_w_set_done.
  - intros [= <-]. by apply step_w_set.
  - intros [= <-]. by apply step_w_stamp.
  - intros [= <-]. by apply step_w_release.
  - intros [= <-]. by apply step_w_append.
  - destruct (lock c) eqn:L; [discriminate|]. intros [= <-]. by apply step_r_acquire.
  - intros [= <-]. by apply step_r_copy.
  - intros [= <-]. by apply step_r_release.
Qed.

Lemma run_sched_sound (sched : list nat) (c c' : cfg) :
  run_sched c sched = Some c' -> rtc step c c'.
Proof.
  revert c. induction sched as [|i sched IH]; intros c; cbn.
  - intros [= <-]. apply rtc_refl.
  - destruct (sched_step c i) as [c1|] eqn:E; [|discriminate].
    intros H. eapply rtc_l; [by apply sched_step_sound with i|]. by apply IH.
Qed.

Lemma inv_init (clk0 : nat -> Z) (writers : list (list (list (string * Z)))) (readers : list nat) :
  inv (sb_new clk0) (init_cfg clk0 writers readers).
Proof.
  split; [cbn; lia|]. split; [intros n d Hin; cbn in Hin; set_solver|].
  cbn [lock threads init_cfg sbuf committed]. split; [|done].
  intros j p Hj. apply list_elem_of_lookup_2, elem_of_app in Hj as [Hj|Hj];
    apply list_elem_of_fmap in Hj as (x & -> & _); done.
Qed.

Lemma inv_rtc (st0 : sb_state) (c c' : cfg) : rtc step c c' -> inv st0 c -> inv st0 c'.
Proof. induction 1 as [|c1 c2 c3 Hs _ IH]; [done|]. intros H. by apply IH, (inv_step _ c1). Qed.

(** C9: in every interleaving of writers calling [update_multiple] and
    readers calling [get_all] on one buffer, each statement of a method
    body being one step and [self.lock] held around the body, every
    snapshot a reader obtains equals the buffer after the first [n]
    returned batches applied one [update_multiple] at a time, for some
    [n]: a batch is visible in a snapshot entirely or not at all. *)
Theorem get_all_sees_whole_batches (clk0 : nat -> Z)
    (writers : list (list (list (string * Z)))) (readers : list nat) (c : cfg) :
  rtc step (init_cfg clk0 writers readers) c ->
  forall (n : nat) (d : gmap string Z), (n, d) ∈ observed c ->
    (n <= length (committed c))%nat /\
    d = data_of (serial (take n (committed c)) (sb_new clk0)).
Proof.
  intros Hr. destruct (inv_rtc _ _ _ Hr (inv_init clk0 writers readers)) as (_ & Hobs & _).
  exact Hobs.
Qed.

Lemma get_all_sees_whole_batches_witness :
  rtc step demo_init demo_final /\ (1%nat, demo_snapshot) ∈ observed demo_final /\
  ((1 <= length (committed demo_final))%nat /\
   demo_snapshot = data_of (serial (take 1 (committed demo_final)) (sb_new demo_clock))).
Proof.
  assert (Hr : rtc step demo_init demo_final)
    by (apply (run_sched_sound demo_sched); vm_compute; reflexivity).
  assert (Hin : (1%nat, demo_snapshot) ∈ observed demo_final)
    by (apply list_elem_of_lookup_2 with O; vm_compute; reflexivity).
  split; [exact Hr|]. split; [exact Hin|].
  exact (get_all_sees_whole_batches demo_clock _ _ _ Hr _ _ Hin).
Defined.

End ConcurrentProofs.

(* ================================================================== *)
(** * Proofs: further SignalBuffer properties *)

Module BufferExtraProofs.
Import Buffer BufferProofs BufferSpec.

(** [update(key, value)] makes [get(key)] return [value] (the timestamp
    for [key = 'timestamp']), also when it raises [KeyError]. *)
Theorem update_then_get (k : string) (v : Z) (st : sb_state) :
  get k (fst (update k v st)) =
  if bool_decide (k = "timestamp"%string) then clock st (clk st) else v.
Proof.
  unfold get. rewrite update_data, lookup_insert.
  case_bool_decide as H; case_decide as H'; subst; try congruence; cbn.
  - reflexivity.
  - by rewrite lookup_insert_eq.
Qed.

(** After [update_multiple(updates)], [get('timestamp')] is the time read
    by the call, whatever [updates] holds, a ['timestamp'] entry included. *)
Theorem update_multiple_timestamp (u : list (string * Z)) (st : sb_state) :
  get "timestamp" (fst (update_multiple u st)) = clock st (clk st).
Proof. unfold get. rewrite update_multiple_data, lookup_insert_eq. reflexivity. Qed.

Lemma ts_sorted_snoc (l : list (Z * Z)) (x : Z * Z) :
  ts_sorted l -> (forall y, y ∈ l -> y.1 <= x.1) -> ts_sorted (l ++ [x]).
Proof.
  intros Hs Hle i j a b Hij Hi Hj.
  assert (Hjl : (j <= length l)%nat).
  { apply lookup_lt_Some in Hj. rewrite length_app in Hj. cbn in Hj. lia. }
  assert (Hil : (i < length l)%nat) by lia.
  rewrite lookup_app_l in Hi by done.
  destruct (decide (j = length l)) as [->|Hne].
  - rewrite lookup_app_r, Nat.sub_diag in Hj by lia. injection Hj as <-.
    apply Hle. by apply list_elem_of_lookup_2 with i.
  - rewrite lookup_app_l in Hj by lia. eauto.
Qed.

Lemma ts_sorted_tl (l : list (Z * Z)) : ts_sorted l -> ts_sorted (tl l).
Proof.
  destruct l as [|a l]; [done|]. intros Hs i j x y Hij Hi Hj. cbn in Hi, Hj.
  apply (Hs (S i) (S j)); [lia|done|done].
Qed.

Lemma dq_append_items (x : Z * Z) (q : deque) :
  dq_items (dq_append x q) = dq_items q ++ [x] \/
  dq_items (dq_append x q) = tl (dq_items q ++ [x]).
Proof.
  unfold dq_append. destruct (dq_maxlen q); [destruct (_ <? _)%nat|]; cbn; auto.
Qed.

Lemma elem_of_tl {A} (l : list A) (y : A) : y ∈ tl l -> y ∈ l.
Proof. destruct l; cbn; [set_solver|]. intros. by right. Qed.

Lemma hist_ok_set_value (st : sb_state) (kv : string * Z) :
  hist_ok st -> hist_ok (set_value st kv).
Proof. done. Qed.

Lemma hist_ok_stamp (st : sb_state) :
  clock_monotone (clock st) -> hist_ok st -> hist_ok (stamp st).
Proof.
  intros Hm H c q Hq. destruct (H c q Hq) as [Hs Hb]. split; [done|].
  intros x Hx. cbn. etrans; [by apply Hb|]. apply Hm. lia.
Qed.

Lemma hist_ok_append_history (st : sb_state) (kv : string * Z) :
  clock_monotone (clock st) -> hist_ok st -> hist_ok (append_history st kv).
Proof.
  intros Hm H. unfold append_history.
  destruct (history st !! kv.1) as [q0|] eqn:E; [|done].
  intros c q. cbn [time_time set_history history clock clk].
  rewrite lookup_insert. case_decide as Hc.
  - intros [= <-]. destruct (H _ _ E) as [Hs Hb].
    assert (Hs' : ts_sorted (dq_items q0 ++ [(clock st (clk st), kv.2)])).
    { apply ts_sorted_snoc; [done|]. intros y Hy. by apply Hb. }
    assert (Hb' : forall y, y ∈ dq_items q0 ++ [(clock st (clk st), kv.2)] ->
                    y.1 <= clock st (S (clk st))).
    { intros y Hy. apply elem_of_app in Hy as [Hy|Hy].
      - etrans; [by apply Hb|]. apply Hm. lia.
      - apply list_elem_of_singleton in Hy as ->. cbn. apply Hm. lia. }
    destruct (dq_append_items (clock st (clk st), kv.2) q0) as [->| ->].
    + split; [done|]. exact Hb'.
    + split; [by apply ts_sorted_tl|]. intros y Hy. apply Hb', elem_of_tl, Hy.
  - intros Hq. destruct (H c q Hq) as [Hs Hb]. split; [done|].
    intros x Hx. etrans; [by apply Hb|]. apply Hm. lia.
Qed.

Lemma clock_set_value (st : sb_state) (kv : string * Z) : clock (set_value st kv) = clock st.
Proof. reflexivity. Qed.

Lemma hist_ok_foldl_set (u : list (string * Z)) (st : sb_state) :
  hist_ok st -> hist_ok (foldl set_value st u).
Proof. revert st. induction u as [|kv u IH]; intros st H; [done|]. cbn. by apply IH. Qed.

Lemma hist_ok_foldl_append (u : list (string * Z)) (st : sb_state) :
  clock_monotone (clock st) -> hist_ok st -> hist_ok (foldl append_history st u).
Proof.
  revert st. induction u as [|kv u IH]; intros st Hm H; [done|]. cbn.
  apply IH.
  - by destruct (append_history_fields st kv) as (-> & _).
  - by apply hist_ok_append_history.
Qed.

Lemma clock_exec (o : op) (st : sb_state) : clock (exec o st) = clock st.
Proof.
  destruct o as [k v|u]; cbn [exec].
  - unfold update. destruct (history _ !! k); cbn [fst]; [|reflexivity].
    by destruct (append_history_fields (stamp (set_value st (k, v))) (k, v)) as (-> & _).
  - unfold update_multiple; cbn [fst].
    destruct (foldl_append_fields u (stamp (foldl set_value st u))) as (-> & _).
    cbn. by destruct (foldl_set_fields u st) as (-> & _).
Qed.

Lemma hist_ok_exec (o : op) (st : sb_state) :
  clock_monotone (clock st) -> hist_ok st -> hist_ok (exec o st).
Proof.
  intros Hm H. destruct o as [k v|u]; cbn [exec].
  - unfold update. destruct (history _ !! k); cbn [fst].
    + apply hist_ok_append_history; [done|]. by apply hist_ok_stamp.
    + by apply hist_ok_stamp.
  - unfold update_multiple; cbn [fst]. apply hist_ok_foldl_append.
    + cbn. by destruct (foldl_set_fields u st) as (-> & _).
    + apply hist_ok_stamp; [by destruct (foldl_set_fields u st) as (-> & _)|].
      by apply hist_ok_foldl_set.
Qed.

Lemma hist_ok_run (ops : list op) (st : sb_state) :
  clock_monotone (clock st) -> hist_ok st -> hist_ok (run ops st).
Proof.
  revert st. induction ops as [|o ops IH]; intros st Hm H; [done|].
  unfold run; cbn [foldl]. fold (run ops (exec o st)).
  apply IH; [by rewrite clock_exec|by apply hist_ok_exec].
Qed.

Lemma hist_ok_new (clk0 : nat -> Z) : hist_ok (sb_new clk0).
Proof.
  intros c q. unfold sb_new, sb_new_with. cbn [history].
  rewrite lookup_const_map. destruct (decide _); [|done]. intros [= <-].
  split; [intros i j x y _ Hi; done|]. cbn. set_solver.
Qed.

(** With a clock that never goes backwards, every history returned by
    [get_history] is in nondecreasing timestamp order, after any sequence
    of [update] and [update_multiple] calls (raising ones included). *)
Theorem history_timestamps_sorted (clk0 : nat -> Z) (ops : list op) (c : string) :
  clock_monotone clk0 -> ts_sorted (hist_items c (run ops (sb_new clk0))).
Proof.
  intros Hm. unfold hist_items.
  destruct (history (run ops (sb_new clk0)) !! c) as [q|] eqn:E.
  - apply (hist_ok_run ops (sb_new clk0) Hm (hist_ok_new clk0) c q E).
  - intros i j x y _ Hi. done.
Qed.

Lemma history_timestamps_sorted_witness :
  clock_monotone (fun n => Z.of_nat n) /\
  ts_sorted (hist_items "rpm" (run [OpUpdate "rpm" 1; OpUpdateMultiple [("rpm", 2)]]%string
                                   (sb_new (fun n => Z.of_nat n)))).
Proof.
  assert (Hm : clock_monotone (fun n => Z.of_nat n)) by (intros i j H; lia).
  split; [exact Hm|].
  exact (history_timestamps_sorted (fun n => Z.of_nat n) _ "rpm"%string Hm).
Defined.

End BufferExtraProofs.

(* ================================================================== *)
(** * Proofs: the CAN simulation loop writing into the buffer *)

Module CanWorkerProofs.
Import Sim Buffer CanWorker SimProofs BufferProofs.

Lemma loop_app (s : sim_state) (st : sb_state) (ds1 ds2 : list (Z * Z)) :
  simulate_can_loop s st (ds1 ++ ds2) =
  let '(s', st') := simulate_can_loop s st ds1 in simulate_can_loop s' st' ds2.
Proof.
  revert s st. induction ds1 as [|d ds1 IH]; intros s st; [done|]. cbn.
  destruct (can_iteration s st d) as [s1 st1]. apply IH.
Qed.

Lemma simulate_can_state (st : sb_state) (ds : list (Z * Z)) :
  fst (simulate_can st ds) = sim_states (length ds).
Proof.
  unfold simulate_can. induction ds as [|d ds IH] using rev_ind; [done|].
  rewrite loop_app, length_app, Nat.add_comm. cbn [length Nat.add].
  destruct (simulate_can_loop sim_init st ds) as [s1 st1] eqn:E. cbn in IH |- *.
  unfold can_iteration. destruct (sim_tick s1) as [s2 o] eqn:T. cbn.
  rewrite <- IH. by rewrite T.
Qed.

Lemma simulate_can_last (st : sb_state) (ds : list (Z * Z)) (d : Z * Z) :
  snd (simulate_can st (ds ++ [d])) =
  fst (update_multiple (can_updates (sim_output (S (length ds))) d.1 d.2)
                       (snd (simulate_can st ds))).
Proof.
  pose proof (simulate_can_state st ds) as Hs. unfold simulate_can in *.
  rewrite loop_app. destruct (simulate_can_loop sim_init st ds) as [s1 st1] eqn:E.
  cbn in Hs |- *. unfold can_iteration, sim_output. cbn [pred]. rewrite <- Hs.
  by destruct (sim_tick s1).
Qed.

Lemma get_after_can_updates (o : sim_out) (t oil : Z) (st : sb_state) :
  let st' := fst (update_multiple (can_updates o t oil) st) in
  get "rpm" st' = out_rpm o /\ get "speed" st' = out_speed o /\
  get "coolant_temp" st' = t /\ get "oil_pressure" st' = oil /\
  get "throttle" st' = out_throttle o /\ get "brake" st' = out_brake o.
Proof.
  unfold get. rewrite update_multiple_data. unfold can_updates. cbn [foldl fst snd].
  repeat split; simplify_map_eq; reflexivity.
Qed.

Lemma sim_tick_speed (s : sim_state) :
  out_speed (snd (sim_tick s)) = py_int_div (out_rpm (snd (sim_tick s))) 100.
Proof.
  unfold sim_tick. destruct (13500 <=? _); [|destruct (_ <=? 1000)];
    destruct (0 <? _); reflexivity.
Qed.

(** After [n >= 1] iterations of [_simulate_can] on a fresh buffer, the
    buffer holds the values of the [n]-th iteration: the simulated rpm,
    speed, throttle and brake, and the last two [random.randint] draws.
    So a reader always finds rpm in [1000, 13500], speed = rpm // 100,
    throttle and brake in [0, 100] and never both nonzero, coolant
    temperature in [180, 210] and oil pressure in [40, 65]. *)
Theorem can_loop_snapshot (clk0 : nat -> Z) (draws : list (Z * Z)) :
  draws <> [] -> randint_ok draws ->
  let st := snd (simulate_can (sb_new clk0) draws) in
  let o := sim_output (length draws) in
  get "rpm" st = out_rpm o /\ get "speed" st = out_speed o /\
  get "throttle" st = out_throttle o /\ get "brake" st = out_brake o /\
  (exists d, last draws = Some d /\ get "coolant_temp" st = d.1 /\
             get "oil_pressure" st = d.2) /\
  1000 <= get "rpm" st <= 13500 /\ get "speed" st = get "rpm" st / 100 /\
  0 <= get "throttle" st <= 100 /\ 0 <= get "brake" st <= 100 /\
  (get "throttle" st = 0 \/ get "brake" st = 0) /\
  180 <= get "coolant_temp" st <= 210 /\ 40 <= get "oil_pressure" st <= 65.
Proof.
  intros Hne Hr. destruct (exists_last Hne) as (ds & d & ->). cbn zeta.
  rewrite simulate_can_last, length_app, Nat.add_comm. cbn [length Nat.add].
  destruct (get_after_can_updates (sim_output (S (length ds))) d.1 d.2
              (snd (simulate_can (sb_new clk0) ds))) as (-> & -> & -> & -> & -> & ->).
  assert (Hd : 180 <= d.1 <= 210 /\ 40 <= d.2 <= 65).
  { unfold randint_ok in Hr. rewrite Forall_app, Forall_singleton in Hr. apply Hr. }
  pose proof (sim_inv_states (length ds)) as Hinv.
  pose proof (sim_tick_outputs _ Hinv) as (Hrpm & Hup & Hdown & _).
  pose proof (sim_inv_tick _ Hinv) as (Hb & Hdir & _).
  pose proof (sim_tick_speed (sim_states (length ds))) as Hsp.
  unfold sim_output. cbn [pred]. rewrite Hsp, Hrpm.
  rewrite py_int_div_nonneg by lia.
  do 4 (split; [reflexivity|]).
  split; [exists d; split; [by rewrite last_app|done]|].
  split; [lia|]. split; [reflexivity|].
  destruct Hdir as [Hdir|Hdir].
  - destruct Hup as [-> ->]; [lia|]. unfold clamp. lia.
  - destruct Hdown as [-> ->]; [lia|]. unfold clamp. lia.
Qed.

Lemma can_loop_snapshot_witness :
  ([(190, 50); (200, 60)] <> [] /\ randint_ok [(190, 50); (200, 60)]) /\
  (let st := snd (simulate_can (sb_new (fun n => Z.of_nat n)) [(190, 50); (200, 60)]) in
   let o := sim_output (length [(190, 50); (200, 60)]) in
   get "rpm" st = out_rpm o /\ get "speed" st = out_speed o /\
   get "throttle" st = out_throttle o /\ get "brake" st = out_brake o /\
   (exists d, last [(190, 50); (200, 60)] = Some d /\ get "coolant_temp" st = d.1 /\
              get "oil_pressure" st = d.2) /\
   1000 <= get "rpm" st <= 13500 /\ get "speed" st = get "rpm" st / 100 /\
   0 <= get "throttle" st <= 100 /\ 0 <= get "brake" st <= 100 /\
   (get "throttle" st = 0 \/ get "brake" st = 0) /\
   180 <= get "coolant_temp" st <= 210 /\ 40 <= get "oil_pressure" st <= 65).
Proof.
  assert (Hne : [(190, 50); (200, 60)] <> []) by discriminate.
  assert (Hr : randint_ok [(190, 50); (200, 60)])
    by (repeat constructor; cbn; lia).
  split; [split; [exact Hne|exact Hr]|].
  exact (can_loop_snapshot (fun n => Z.of_nat n) _ Hne Hr).
Defined.

End CanWorkerProofs.

(* ================================================================== *)
(** * Proofs: shift lights, dashboard screens, lap timer *)

Module DisplayProofs.
Import Buffer BufferProofs Display.

Lemma shift_level_lit_count (rpm : Z) :
  shift_level rpm = (lit_count rpm, lit_count rpm =? 10)%nat /\
  (11250 <=? rpm) = (lit_count rpm =? 10)%nat /\ (lit_count rpm <= 10)%nat.
Proof.
  unfold shift_level, lit_count, num_lights.
  destruct (Z.ltb_spec rpm 10000); [|destruct (Z.leb_spec 11250 rpm)].
  - rewrite (proj2 (Z.leb_gt 11250 rpm)) by lia.
    replace (Z.min 10 (Z.max 0 ((rpm - 10000) / 125))) with 0;
      [cbn; split; [reflexivity|split; [reflexivity|lia]]|].
    assert ((rpm - 10000) / 125 < 0) by (Z.div_mod_to_equations; lia). lia.
  - replace (Z.min 10 (Z.max 0 ((rpm - 10000) / 125))) with 10; [done|].
    assert (10 <= (rpm - 10000) / 125) by (Z.div_mod_to_equations; lia). lia.
  - rewrite Z.quot_div_nonneg by lia.
    replace ((rpm - 10000) * Z.of_nat 10 / 1250) with ((rpm - 10000) / 125)
      by (Z.div_mod_to_equations; lia).
    assert (0 <= (rpm - 10000) / 125 < 10) by (Z.div_mod_to_equations; lia).
    rewrite Z.max_r, Z.min_r by lia. split; [|split; [|lia]]; f_equal.
    + symmetry. apply Nat.eqb_neq. lia.
    + symmetry. apply Nat.eqb_neq. lia.
Qed.

Lemma update_lights_eq (off : color) (rpm : Z) (fs : bool) :
  update_lights off rpm fs =
  inr (map (light_color off (lit_count rpm) (lit_count rpm =? 10)%nat fs)
           [8; 6; 4; 2; 0; 1; 3; 5; 7; 9]%nat).
Proof.
  unfold update_lights. destruct (shift_level_lit_count rpm) as [-> _]. reflexivity.
Qed.

Lemma light_levels (off : color) (k : nat) (fs : bool) :
  (k <= 10)%nat ->
  map (light_color off k (k =? 10)%nat fs) [8; 6; 4; 2; 0; 1; 3; 5; 7; 9]%nat =
  if (k =? 10)%nat && fs then repeat c_red num_lights
  else map (fun i => if (5 - (k + 1) / 2 <=? i)%nat && (i <=? 4 + k / 2)%nat
                     then zone_color i else off) (seq 0 num_lights).
Proof.
  intros Hk. do 11 (destruct k as [|k]; [destruct fs; reflexivity|]). lia.
Qed.

Lemma bar_pattern_levels (off : color) (rpm : Z) (fs : bool) :
  update_lights off rpm fs = inr (bar_pattern off rpm fs).
Proof.
  rewrite update_lights_eq. unfold bar_pattern.
  destruct (shift_level_lit_count rpm) as (_ & -> & Hk).
  by rewrite light_levels.
Qed.

(** Both shift light bars fill from the centre outwards: with
    [k = min(10, max(0, (rpm - 10000) // 125))] lights lit, the lit lights
    are the indices [5 - (k + 1) // 2 .. 4 + k // 2], green in the middle
    six, yellow next to them and red at the ends; from 11250 rpm on, all
    ten turn red while [flash_state] holds. The two bars differ only in
    the colour of unlit lights, and [update_lights] never raises. *)
Theorem shift_lights_pattern (rpm : Z) (flash_state : bool) :
  ShiftLightBar_update_lights rpm flash_state = inr (bar_pattern c_off_rect rpm flash_state) /\
  ShiftLightBarCircular_update_lights rpm flash_state =
    inr (bar_pattern c_off_circ rpm flash_state).
Proof. split; apply bar_pattern_levels. Qed.

Lemma lit_count_ge (j : nat) (rpm : Z) :
  (1 <= j <= 10)%nat -> (j <= lit_count rpm)%nat <-> 10000 + 125 * Z.of_nat j <= rpm.
Proof.
  intros Hj. unfold lit_count.
  split; intros H.
  - assert (Z.of_nat j <= (rpm - 10000) / 125) by lia.
    Z.div_mod_to_equations. lia.
  - assert (Z.of_nat j <= (rpm - 10000) / 125) by (Z.div_mod_to_equations; lia). lia.
Qed.

Lemma bar_colors_levels (k : nat) (fs : bool) :
  (k <= 10)%nat ->
  let cs := if (k =? 10)%nat && fs then repeat c_red num_lights
            else map (fun i => if (5 - (k + 1) / 2 <=? i)%nat && (i <=? 4 + k / 2)%nat
                               then zone_color i else c_off_rect) (seq 0 num_lights) in
  (c_red ∈ cs <-> (9 <= k)%nat) /\
  (c_yellow ∈ cs <-> (7 <= k)%nat /\ ~ (k = 10%nat /\ fs = true)) /\
  (c_green ∈ cs <-> (1 <= k)%nat /\ ~ (k = 10%nat /\ fs = true)).
Proof.
  intros Hk. do 11 (destruct k as [|k]; [destruct fs; cbn zeta;
    match goal with |- ?G => apply (bool_decide_unpack G) end;
    vm_compute; reflexivity|]). lia.
Qed.

(** The rectangular shift light bar shows a red light exactly from 11125
    rpm on, a yellow one from 10875 rpm on and a green one from 10125 rpm
    on, the last two except while all lights flash red (from 11250 rpm,
    when [flash_state] holds). *)
Theorem shift_lights_thresholds (rpm : Z) (flash_state : bool) :
  exists cs, ShiftLightBar_update_lights rpm flash_state = inr cs /\
    (c_red ∈ cs <-> 11125 <= rpm) /\
    (c_yellow ∈ cs <-> 10875 <= rpm /\ ~ (11250 <= rpm /\ flash_state = true)) /\
    (c_green ∈ cs <-> 10125 <= rpm /\ ~ (11250 <= rpm /\ flash_state = true)).
Proof.
  exists (bar_pattern c_off_rect rpm flash_state). split; [apply bar_pattern_levels|].
  destruct (shift_level_lit_count rpm) as (_ & Hb & Hk).
  assert (H10 : 11250 <= rpm <-> lit_count rpm = 10%nat).
  { rewrite <- Z.leb_le, Hb. apply Nat.eqb_eq. }
  rewrite H10, <- (lit_count_ge 9), <- (lit_count_ge 7), <- (lit_count_ge 1) by lia.
  unfold bar_pattern. rewrite Hb. by apply bar_colors_levels.
Qed.

Lemma bar_all_red_levels (off : color) (k : nat) :
  (k <= 10)%nat -> off <> c_red ->
  (map (fun i => if (5 - (k + 1) / 2 <=? i)%nat && (i <=? 4 + k / 2)%nat
                 then zone_color i else off) (seq 0 num_lights) <> repeat c_red num_lights).
Proof.
  intros Hk Hoff. do 11 (destruct k as [|k]; [cbn; intros [=]; done|]). lia.
Qed.

Lemma bar_pattern_all_red (rpm : Z) (fs : bool) :
  (11250 <=? rpm) && fs = true <-> bar_pattern c_off_rect rpm fs = repeat c_red num_lights.
Proof.
  unfold bar_pattern. destruct ((11250 <=? rpm) && fs); [done|].
  split; [discriminate|]. intros H. exfalso. revert H.
  apply bar_all_red_levels; [apply shift_level_lit_count|discriminate].
Qed.

(** In [MainDashScreen.update_display], the gauge background flashes red
    exactly on the frames where the shift light bar shows all ten lights
    red. *)
Theorem main_dash_flash_all_red (fc : Z) (data : gmap string Z) (fc' : Z) (v : main_view) :
  MainDash_update_display fc data = (fc', inr v) ->
  mv_gauge_flash v = true <-> mv_lights v = repeat c_red num_lights.
Proof.
  unfold MainDash_update_display. destruct (flash_tick fc) as [fc1 fs].
  intros [= _ H]. unfold ShiftLightBar_update_lights in H.
  cbv [mbind mret py_bind py_ret] in H. repeat (case_match; simplify_eq/=).
  match goal with E : update_lights _ _ _ = inr _ |- _ =>
    rewrite bar_pattern_levels in E; injection E as <- end.
  apply bar_pattern_all_red.
Qed.

Lemma main_dash_flash_all_red_witness :
  exists fc' v,
    MainDash_update_display 0 (data_of (fst (update "rpm" 12000 (sb_new (fun n => Z.of_nat n))))) =
      (fc', inr v) /\
    (mv_gauge_flash v = true <-> mv_lights v = repeat c_red num_lights).
Proof.
  destruct (MainDash_update_display 0
    (data_of (fst (update "rpm" 12000 (sb_new (fun n => Z.of_nat n)))))) as [fc' [e|v]] eqn:E.
  - vm_compute in E. discriminate.
  - exists fc', v. split; [reflexivity|]. exact (main_dash_flash_all_red _ _ _ _ E).
Defined.

Lemma main_run_count (fc : Z) (frames : list (gmap string Z)) :
  main_run fc frames = fc + Z.of_nat (length frames).
Proof.
  revert fc. induction frames as [|d ds IH]; intros fc; cbn [main_run length]; [lia|].
  rewrite IH. unfold MainDash_update_display, flash_tick. cbn [fst]. lia.
Qed.

Lemma flash_phase (m : Z) : 0 <= m -> ((m / 5) mod 2 =? 0) = (m mod 10 <? 5).
Proof.
  intros Hm. destruct (Z.eqb_spec ((m / 5) mod 2) 0), (Z.ltb_spec (m mod 10) 5);
    try reflexivity; exfalso; Z.div_mod_to_equations; lia.
Qed.

(** In [MainDashScreen.update_display], on the [n]-th call ([n] = 1, 2,
    ...) the gauge background is red exactly when the rpm is at least
    11250 and [n mod 10 < 5]: five frames on, five frames off. *)
Theorem main_dash_flash_schedule (frames : list (gmap string Z)) (data : gmap string Z)
    (fc' : Z) (v : main_view) :
  MainDash_update_display (main_run 0 frames) data = (fc', inr v) ->
  mv_gauge_flash v = (11250 <=? mv_rpm v) && ((Z.of_nat (length frames) + 1) mod 10 <? 5).
Proof.
  rewrite main_run_count. unfold MainDash_update_display, flash_tick.
  intros [= _ H]. cbv [mbind mret py_bind py_ret] in H.
  repeat (case_match; simplify_eq/=). f_equal.
  replace (0 + Z.of_nat (length frames) + 1) with (Z.of_nat (length frames) + 1) by lia.
  apply flash_phase. lia.
Qed.

Lemma main_dash_flash_schedule_witness :
  exists fc' v,
    MainDash_update_display (main_run 0 [])
      (data_of (fst (update "rpm" 12000 (sb_new (fun n => Z.of_nat n))))) = (fc', inr v) /\
    mv_gauge_flash v = (11250 <=? mv_rpm v) && ((Z.of_nat (length (@nil (gmap string Z))) + 1) mod 10 <? 5).
Proof.
  destruct (MainDash_update_display (main_run 0 [])
    (data_of (fst (update "rpm" 12000 (sb_new (fun n => Z.of_nat n)))))) as [fc' [e|v]] eqn:E.
  - vm_compute in E. discriminate.
  - exists fc', v. split; [reflexivity|]. exact (main_dash_flash_schedule _ _ _ _ E).
Defined.

(** The gear shown by [MainDashScreen] and [LapTimerScreen] is between 1
    and 6 and never goes down when the speed goes up. *)
Theorem gear_of_speed_monotone (s1 s2 : Z) :
  s1 <= s2 -> 1 <= gear_of_speed s1 <= gear_of_speed s2 /\ gear_of_speed s2 <= 6.
Proof.
  intros H. unfold gear_of_speed.
  repeat match goal with |- context [?a <? ?b] => destruct (Z.ltb_spec a b) end; lia.
Qed.

Lemma gear_of_speed_monotone_witness :
  20 <= 60 /\ 1 <= gear_of_speed 20 <= gear_of_speed 60 /\ gear_of_speed 60 <= 6.
Proof. split; [lia|]. apply gear_of_speed_monotone. lia. Defined.

Lemma snapshot_key (clk0 : nat -> Z) (ops : list op) (c : string) :
  c ∈ sb_keys -> exists z, data_of (run ops (sb_new clk0)) !! c = Some z.
Proof.
  intros Hc. apply run_data_mono. unfold sb_new. rewrite sb_new_data.
  rewrite decide_True by done. eauto.
Qed.

Lemma get_all_lookup (st : sb_state) :
  let '(st', l) := get_all st in heap st' !! l = Some (data_of st).
Proof. unfold get_all. cbn [heap]. apply lookup_insert_eq. Qed.

(** Each screen's [update_display] reads a [get_all()] snapshot of a
    [SignalBuffer] after any sequence of [update]/[update_multiple] calls
    without a [KeyError]: [MainDashScreen], [SensorTestScreen] and
    [LapTimerScreen] (for any clock) all find every key they look up. *)
Theorem screens_read_snapshots (clk0 : nat -> Z) (ops : list op) (fc : Z) (ls : lap_state) :
  let '(st', l) := get_all (run ops (sb_new clk0)) in
  let d := default ∅ (heap st' !! l) in
  (exists fc' v, MainDash_update_display fc d = (fc', inr v)) /\
  (exists vs, SensorTest_update_display d = inr vs) /\
  (forall time_at fsub, exists ls' v, LapTimer_update_display time_at fsub ls d = (ls', inr v)).
Proof.
  pose proof (get_all_lookup (run ops (sb_new clk0))) as Hl.
  destruct (get_all _) as [st' l]. rewrite Hl. cbn [default]. try unfold id.
  destruct (snapshot_key clk0 ops "rpm") as [r Hr]; [unfold sb_keys; set_solver|].
  destruct (snapshot_key clk0 ops "speed") as [s Hs]; [unfold sb_keys; set_solver|].
  destruct (snapshot_key clk0 ops "throttle") as [t Ht]; [unfold sb_keys; set_solver|].
  destruct (snapshot_key clk0 ops "brake") as [b Hb]; [unfold sb_keys; set_solver|].
  destruct (snapshot_key clk0 ops "coolant_temp") as [c Hc]; [unfold sb_keys; set_solver|].
  destruct (snapshot_key clk0 ops "oil_pressure") as [o Ho]; [unfold sb_keys; set_solver|].
  split; [|split].
  - unfold MainDash_update_display. destruct (flash_tick fc) as [fc1 fs].
    cbv [getitem ShiftLightBar_update_lights]. rewrite Hr, Hs, Ht, Hb, Hc.
    cbv [mbind mret py_bind py_ret]. rewrite bar_pattern_levels. eauto.
  - cbv [SensorTest_update_display getitem]. rewrite Hr, Hs, Ht, Hb, Hc, Ho. eauto.
  - intros time_at fsub. unfold LapTimer_update_display.
    destruct (flash_tick (lap_flash_counter ls)) as [fc1 fs].
    cbv [getitem ShiftLightBarCircular_update_lights]. rewrite Hr, Hs, Ht, Hb, Hc.
    cbv [mbind mret py_bind py_ret]. rewrite bar_pattern_levels. eauto.
Qed.

Lemma lap_step_best (time_at : nat -> Q) (fsub : Q -> Q -> Q) (ls : lap_state) (d : gmap string Z) :
  best_lap ls = 65.432%Q -> (last_lap ls = 67.891%Q \/ (70 < last_lap ls)%Q) ->
  let ls' := fst (LapTimer_update_display time_at fsub ls d) in
  best_lap ls' = 65.432%Q /\ (last_lap ls' = 67.891%Q \/ (70 < last_lap ls')%Q).
Proof.
  intros Hb Hl. unfold LapTimer_update_display.
  destruct (flash_tick (lap_flash_counter ls)) as [fc fs].
  match goal with |- context [match ?x with inl _ => _ | inr _ => _ end] =>
    destruct x as [e|r] end; [by cbn|]. destruct r as [[[[[? ?] ?] ?] ?] ?]. cbn [fst].
  destruct (Qlt_le_dec 70 _) as [H70|H70]; [|by cbn].
  destruct (Qlt_le_dec _ (best_lap ls)) as [Hlt|Hlt]; cbn [best_lap last_lap].
  - exfalso. rewrite Hb in Hlt. pose proof (Qlt_trans _ _ _ H70 Hlt) as Hc.
    vm_compute in Hc. discriminate.
  - auto.
Qed.

Lemma lap_run_best (time_at : nat -> Q) (fsub : Q -> Q -> Q) (ls : lap_state)
    (frames : list (gmap string Z)) :
  best_lap ls = 65.432%Q -> (last_lap ls = 67.891%Q \/ (70 < last_lap ls)%Q) ->
  best_lap (lap_run time_at fsub ls frames) = 65.432%Q /\
  (last_lap (lap_run time_at fsub ls frames) = 67.891%Q \/
   (70 < last_lap (lap_run time_at fsub ls frames))%Q).
Proof.
  revert ls. induction frames as [|d ds IH]; intros ls Hb Hl; [auto|].
  cbn [lap_run]. destruct (lap_step_best time_at fsub ls d Hb Hl). by apply IH.
Qed.

(** [LapTimerScreen] never records a new best lap: a lap only completes
    when more than 70 s have elapsed, which is never below the initial
    [best_lap = 65.432]. So [best_lap] stays 65.432 and [last_lap] is the
    initial 67.891 or a lap longer than 70 s, whatever the clock and the
    rounding of the subtraction. *)
Theorem lap_best_never_changes (time_at : nat -> Q) (fsub : Q -> Q -> Q)
    (frames : list (gmap string Z)) :
  let ls := lap_run time_at fsub (lap_init time_at) frames in
  best_lap ls = 65.432%Q /\ (last_lap ls = 67.891%Q \/ (70 < last_lap ls)%Q).
Proof. apply lap_run_best; cbn; auto. Qed.

(** Every frame [LapTimerScreen.update_display] completes shows the label
    "BEST  1:05.432". *)
Theorem lap_best_label (time_at : nat -> Q) (fsub : Q -> Q -> Q)
    (frames : list (gmap string Z)) (d : gmap string Z) (ls' : lap_state) (v : lap_view) :
  LapTimer_update_display time_at fsub (lap_run time_at fsub (lap_init time_at) frames) d =
    (ls', inr v) ->
  lv_best v = "BEST  1:05.432"%string.
Proof.
  pose proof (lap_run_best time_at fsub (lap_init time_at) frames) as Hinv.
  destruct Hinv as [Hb Hl]; [reflexivity|left; reflexivity|].
  pose proof (lap_step_best time_at fsub _ d Hb Hl) as [Hb' _].
  unfold LapTimer_update_display in *.
  destruct (flash_tick _) as [fc fs].
  match goal with |- context [match ?x with inl _ => _ | inr _ => _ end] =>
    destruct x as [e|r] end; [intros [=]|]. destruct r as [[[[[? ?] ?] ?] ?] ?].
  intros [= <- <-]. cbn [lv_best]. cbn [fst] in Hb'. rewrite Hb'. vm_compute. reflexivity.
Qed.

Lemma lap_best_label_witness :
  exists ls' v,
    LapTimer_update_display (fun k => inject_Z (Z.of_nat k)) Qminus
      (lap_run (fun k => inject_Z (Z.of_nat k)) Qminus (lap_init (fun k => inject_Z (Z.of_nat k))) [])
      (data_of (sb_new (fun n => Z.of_nat n))) = (ls', inr v) /\
    lv_best v = "BEST  1:05.432"%string.
Proof.
  destruct (LapTimer_update_display (fun k => inject_Z (Z.of_nat k)) Qminus
      (lap_run (fun k => inject_Z (Z.of_nat k)) Qminus (lap_init (fun k => inject_Z (Z.of_nat k))) [])
      (data_of (sb_new (fun n => Z.of_nat n)))) as [ls' [e|v]] eqn:E.
  - vm_compute in E. discriminate.
  - exists ls', v. split; [reflexivity|]. exact (lap_best_label _ _ _ _ _ _ E).
Defined.

Lemma Qfloor_unique (q : Q) (z : Z) :
  (inject_Z z <= q)%Q -> (q < inject_Z z + 1)%Q -> Qfloor q = z.
Proof.
  intros H1 H2.
  pose proof (Qfloor_resp_le _ _ H1) as H3. rewrite Qfloor_Z in H3.
  pose proof (Qfloor_le q) as H4.
  destruct (Z.le_gt_cases (Qfloor q) z) as [H5|H5]; [lia|].
  exfalso. assert (H6 : (inject_Z (z + 1) <= inject_Z (Qfloor q))%Q)
    by (rewrite <- Zle_Qle; lia).
  rewrite inject_Z_plus in H6. change (inject_Z 1) with 1%Q in H6. lra.
Qed.

Lemma round_half_even_up (y : Q) :
  (59999.5 <= y)%Q -> (y < 60000)%Q -> round_half_even y = 60000.
Proof.
  intros H1 H2. unfold round_half_even.
  rewrite (Qfloor_unique y 59999) by (change (inject_Z 59999) with 59999%Q; lra).
  change (inject_Z 59999) with 59999%Q.
  destruct (Qlt_le_dec (1 # 2) (y - 59999)) as [H3|H3]; [reflexivity|].
  destruct (Qeq_dec (y - 59999) (1 # 2)) as [H4|H4]; [reflexivity|].
  exfalso. apply H4. apply Qle_antisym; [exact H3|lra].
Qed.

Lemma format_06_3f_sixty (x : Q) :
  (59.9995 <= x)%Q -> (x < 60)%Q -> format_06_3f x = "60.000"%string.
Proof.
  intros H1 H2. unfold format_06_3f.
  destruct (Qlt_le_dec x 0) as [H3|H3]; [exfalso; lra|].
  rewrite (round_half_even_up (Qabs x * 1000)); [reflexivity| |];
    rewrite (Qabs_pos x H3); lra.
Qed.

(** [LapTimerScreen.format_lap_time] rounds the seconds after taking them
    modulo 60: for [m] whole minutes plus [r] seconds with
    [59.9995 <= r < 60] it shows ["m:60.000"] instead of carrying into
    the minutes. *)
Theorem format_lap_time_sixty (m : Z) (r : Q) :
  0 <= m -> (59.9995 <= r)%Q -> (r < 60)%Q ->
  format_lap_time (inject_Z m * 60 + r) = String.append (pretty m) ":60.000".
Proof.
  intros Hm H1 H2. unfold format_lap_time.
  rewrite (Qfloor_unique _ m).
  2: { apply Qle_shift_div_l; [reflexivity|]. lra. }
  2: { apply Qlt_shift_div_r; [reflexivity|]. lra. }
  rewrite format_06_3f_sixty by lra. reflexivity.
Qed.

Lemma format_lap_time_sixty_witness :
  0 <= 1 /\ (59.9995 <= 59.9996)%Q /\ (59.9996 < 60)%Q /\
  format_lap_time (inject_Z 1 * 60 + 59.9996) = String.append (pretty 1) ":60.000".
Proof.
  split; [lia|]. split; [vm_compute; discriminate|]. split; [vm_compute; reflexivity|].
  apply format_lap_time_sixty; [lia|vm_compute; discriminate|vm_compute; reflexivity].
Defined.

(** A snapshot without "rpm" makes each screen's [update_display] raise
    [KeyError('rpm')] at its first lookup: [MainDashScreen] and
    [LapTimerScreen] have already advanced [flash_counter] by one, and
    [LapTimerScreen] has not read the clock nor changed its lap times. *)
Theorem screens_missing_rpm (time_at : nat -> Q) (fsub : Q -> Q -> Q) (fc : Z) (ls : lap_state)
    (data : gmap string Z) :
  data !! "rpm"%string = None ->
  MainDash_update_display fc data = (fc + 1, inl (KeyError "rpm")) /\
  SensorTest_update_display data = inl (KeyError "rpm") /\
  LapTimer_update_display time_at fsub ls data =
    (LapState (lap_flash_counter ls + 1) (current_lap_start ls) (best_lap ls) (last_lap ls)
       (lap_clk ls), inl (KeyError "rpm")).
Proof.
  intros H. unfold MainDash_update_display, SensorTest_update_display, LapTimer_update_display.
  cbv [flash_tick getitem]. rewrite H. done.
Qed.

Lemma screens_missing_rpm_witness :
  (∅ : gmap string Z) !! "rpm"%string = None /\
  MainDash_update_display 0 ∅ = (0 + 1, inl (KeyError "rpm")) /\
  SensorTest_update_display ∅ = inl (KeyError "rpm") /\
  LapTimer_update_display (fun k => inject_Z (Z.of_nat k)) Qminus
    (lap_init (fun k => inject_Z (Z.of_nat k))) ∅ =
    (LapState (lap_flash_counter (lap_init (fun k => inject_Z (Z.of_nat k))) + 1)
       (current_lap_start (lap_init (fun k => inject_Z (Z.of_nat k))))
       (best_lap (lap_init (fun k => inject_Z (Z.of_nat k))))
       (last_lap (lap_init (fun k => inject_Z (Z.of_nat k))))
       (lap_clk (lap_init (fun k => inject_Z (Z.of_nat k)))), inl (KeyError "rpm")).
Proof.
  assert (H : (∅ : gmap string Z) !! "rpm"%string = None) by reflexivity.
  split; [exact H|]. exact (screens_missing_rpm _ _ 0 _ ∅ H).
Defined.

End DisplayProofs.

(* ================================================================== *)
(** ** Proofs: swipe navigation *)

Module NavProofs.
Import Nav.

Ltac decide_goal :=
  match goal with |- ?G => apply (bool_decide_unpack G); vm_compute; reflexivity end.

Lemma screens_NoDup : NoDup screens.
Proof. decide_goal. Qed.

Lemma screens_lookup_lt (i : nat) (c : string) : screens !! i = Some c -> (i < 4)%nat.
Proof. intros H. apply lookup_lt_Some in H. exact H. Qed.

(** A swipe longer than 100 pixels from the screen at index [i] moves to
    index [i - 1] (swipe right) or [i + 1] (swipe left), modulo 4. *)
Lemma swipe_long_step (x0 x1 t : Z) (dir c : string) (i : nat) :
  screens !! i = Some c -> 100 < Z.abs (x1 - x0) ->
  exists c', screens !! (if 0 <? x1 - x0 then ((i + 3) mod 4)%nat else ((i + 1) mod 4)%nat) = Some c' /\
    swipe x0 x1 (Nav t c dir) = Some (Nav x0 c' (if 0 <? x1 - x0 then "right" else "left")).
Proof.
  intros Hi Hl. unfold swipe, on_touch_up, on_touch_down. cbn [touch_start_x current direction].
  rewrite (proj2 (Z.ltb_lt _ _) Hl).
  destruct (0 <? x1 - x0);
    (do 4 (destruct i as [|i]; [cbn in Hi; injection Hi as <-; eexists; split; reflexivity|]));
    discriminate.
Qed.

Lemma swipe_short (x0 x1 t : Z) (dir c : string) :
  Z.abs (x1 - x0) <= 100 -> swipe x0 x1 (Nav t c dir) = Some (Nav x0 c dir).
Proof.
  intros Hs. unfold swipe, on_touch_up, on_touch_down. cbn [touch_start_x current direction].
  by rewrite (proj2 (Z.ltb_ge _ _) Hs).
Qed.

Lemma swipe_sign (x0 x1 : Z) :
  100 < Z.abs (x1 - x0) -> (0 <? x0 - x1) = negb (0 <? x1 - x0).
Proof.
  intros Hl. destruct (Z.ltb_spec 0 (x0 - x1)), (Z.ltb_spec 0 (x1 - x0)); cbn; lia.
Qed.

(** [RaceDashApp.on_touch_down] then [on_touch_up] from one of the four
    screens always lands on one of the four screens without raising.
    A swipe of at most 100 pixels changes neither the screen nor the
    transition direction; a longer one always changes the screen and sets
    the direction to "right" or "left" by its sign. *)
Theorem swipe_stays_in_screens (x0 x1 : Z) (n : nav) :
  current n ∈ screens ->
  exists n', swipe x0 x1 n = Some n' /\ current n' ∈ screens /\ touch_start_x n' = x0 /\
    (Z.abs (x1 - x0) <= 100 -> current n' = current n /\ direction n' = direction n) /\
    (100 < Z.abs (x1 - x0) ->
       current n' <> current n /\
       direction n' = if 0 <? x1 - x0 then "right"%string else "left"%string).
Proof.
  destruct n as [t c dir]. cbn [current direction]. intros Hc.
  destruct (Z.le_gt_cases (Z.abs (x1 - x0)) 100) as [Hs|Hl].
  - exists (Nav x0 c dir). rewrite swipe_short by done. cbn. repeat split; auto; lia.
  - apply list_elem_of_lookup_1 in Hc as [i Hi].
    destruct (swipe_long_step x0 x1 t dir c i Hi Hl) as (c' & Hc' & ->).
    eexists. split; [reflexivity|]. cbn [current direction touch_start_x].
    split; [by eapply list_elem_of_lookup_2|]. split; [done|]. split; [lia|].
    intros _. split; [|done]. intros ->.
    pose proof (screens_lookup_lt _ _ Hi).
    assert (i = if 0 <? x1 - x0 then ((i + 3) mod 4)%nat else ((i + 1) mod 4)%nat) as Heq
      by (eapply NoDup_lookup; [apply screens_NoDup|exact Hi|exact Hc']).
    destruct (0 <? x1 - x0); (do 4 (destruct i as [|i]; [discriminate|])); lia.
Qed.

Lemma swipe_stays_in_screens_witness :
  current (Nav 0 "main" "left") ∈ screens /\
  exists n', swipe 300 50 (Nav 0 "main" "left") = Some n' /\ current n' ∈ screens /\
    touch_start_x n' = 300 /\
    (Z.abs (50 - 300) <= 100 -> current n' = current (Nav 0 "main" "left") /\
       direction n' = direction (Nav 0 "main" "left")) /\
    (100 < Z.abs (50 - 300) ->
       current n' <> current (Nav 0 "main" "left") /\
       direction n' = if 0 <? 50 - 300 then "right"%string else "left"%string).
Proof.
  assert (H : current (Nav 0 "main" "left") ∈ screens) by decide_goal.
  split; [exact H|]. exact (swipe_stays_in_screens 300 50 _ H).
Defined.

(** A long swipe followed by the opposite swipe (touch down where the
    first one ended, up where it started) returns to the screen it
    started from. *)
Theorem swipe_round_trip (x0 x1 : Z) (n n1 : nav) :
  current n ∈ screens -> 100 < Z.abs (x1 - x0) -> swipe x0 x1 n = Some n1 ->
  exists n2, swipe x1 x0 n1 = Some n2 /\ current n2 = current n.
Proof.
  destruct n as [t c dir]. cbn [current]. intros Hc Hl Hs.
  apply list_elem_of_lookup_1 in Hc as [i Hi].
  destruct (swipe_long_step x0 x1 t dir c i Hi Hl) as (c1 & Hc1 & Hs1).
  rewrite Hs1 in Hs. injection Hs as <-.
  assert (Hl' : 100 < Z.abs (x0 - x1)) by lia.
  destruct (swipe_long_step x1 x0 x0 (if 0 <? x1 - x0 then "right" else "left") c1 _ Hc1 Hl')
    as (c2 & Hc2 & Hs2).
  exists (Nav x1 c2 (if 0 <? x0 - x1 then "right" else "left")). split; [exact Hs2|].
  cbn [current]. rewrite (swipe_sign x0 x1 Hl) in Hc2.
  pose proof (screens_lookup_lt _ _ Hi).
  destruct (0 <? x1 - x0); cbn [negb] in Hc2;
    (do 4 (destruct i as [|i]; [cbn in Hc2, Hi; injection Hc2 as <-; injection Hi as <-; reflexivity|])); lia.
Qed.

Lemma swipe_round_trip_witness :
  exists n1, swipe 300 50 (Nav 0 "sensors" "left") = Some n1 /\
    exists n2, swipe 50 300 n1 = Some n2 /\ current n2 = current (Nav 0 "sensors" "left").
Proof.
  exists (Nav 300 "settings" "left"). split; [reflexivity|].
  apply (swipe_round_trip 300 50 (Nav 0 "sensors" "left")); [decide_goal|lia|reflexivity].
Defined.

(** Four long swipes in the same direction pass through every screen
    once and come back to the first one. *)
Theorem swipe_cycle (x0 x1 : Z) (n : nav) :
  current n ∈ screens -> 100 < Z.abs (x1 - x0) ->
  exists n1 n2 n3 n4,
    swipe x0 x1 n = Some n1 /\ swipe x0 x1 n1 = Some n2 /\
    swipe x0 x1 n2 = Some n3 /\ swipe x0 x1 n3 = Some n4 /\
    current n4 = current n /\ NoDup [current n; current n1; current n2; current n3].
Proof.
  destruct n as [t c dir]. cbn [current]. intros Hc Hl.
  apply list_elem_of_lookup_1 in Hc as [i Hi].
  pose proof (screens_lookup_lt _ _ Hi).
  destruct (swipe_long_step x0 x1 t dir c i Hi Hl) as (c1 & Hc1 & Hs1).
  destruct (swipe_long_step x0 x1 x0 (if 0 <? x1 - x0 then "right" else "left") c1 _ Hc1 Hl) as (c2 & Hc2 & Hs2).
  destruct (swipe_long_step x0 x1 x0 (if 0 <? x1 - x0 then "right" else "left") c2 _ Hc2 Hl) as (c3 & Hc3 & Hs3).
  destruct (swipe_long_step x0 x1 x0 (if 0 <? x1 - x0 then "right" else "left") c3 _ Hc3 Hl) as (c4 & Hc4 & Hs4).
  do 4 eexists. split; [exact Hs1|]. split; [exact Hs2|]. split; [exact Hs3|].
  split; [exact Hs4|]. cbn [current].
  destruct (0 <? x1 - x0);
    (do 4 (destruct i as [|i];
       [cbn in Hi, Hc1, Hc2, Hc3, Hc4;
        injection Hi as <-; injection Hc1 as <-; injection Hc2 as <-;
        injection Hc3 as <-; injection Hc4 as <-; split; [reflexivity|decide_goal]|])); lia.
Qed.

Lemma swipe_cycle_witness :
  exists n1 n2 n3 n4,
    swipe 50 300 (Nav 0 "laptimer" "left") = Some n1 /\ swipe 50 300 n1 = Some n2 /\
    swipe 50 300 n2 = Some n3 /\ swipe 50 300 n3 = Some n4 /\
    current n4 = current (Nav 0 "laptimer" "left") /\
    NoDup [current (Nav 0 "laptimer" "left"); current n1; current n2; current n3].
Proof. apply swipe_cycle; [decide_goal|lia]. Defined.

End NavProofs.

(* ================================================================== *)
(** ** Proofs: command line and start-up *)

Module StartupProofs.
Import Supervisor Startup.

Lemma last_cons_Some (x y : string) (l : list string) :
  last l = Some y -> last (x :: l) = Some y.
Proof. destruct l as [|z l]; [discriminate|]. done. Qed.

Lemma parse_app_len (py_int : string -> option Z) (k : nat) :
  forall (args1 args2 : list string) (c : cli), (length args1 <= k)%nat ->
  last args1 <> Some "--baud"%string ->
  (last args1 = Some "--serial"%string ->
     forall p, head args2 = Some p -> String.prefix "--" p = true) ->
  parse_args_from py_int (args1 ++ args2) c =
    parse_args_from py_int args1 c ≫= parse_args_from py_int args2.
Proof.
  induction k as [|k IH]; intros args1 args2 c Hlen Hb Hs.
  { destruct args1; [done|cbn in Hlen; lia]. }
  destruct args1 as [|a rest]; [done|]. cbn in Hlen.
  cbn [Datatypes.app parse_args_from].
  destruct (bool_decide (a = "--serial"%string)) eqn:E1.
  - apply bool_decide_eq_true in E1 as ->. destruct rest as [|p rest].
    + destruct args2 as [|p args2]; [done|].
      cbn [Datatypes.app]. rewrite (Hs eq_refl p eq_refl). done.
    + cbn [Datatypes.app]. destruct (negb (String.prefix "--" p)).
      * apply IH; [cbn in *; lia| |].
        -- intros Hl. apply Hb. by do 2 apply last_cons_Some.
        -- intros Hl. apply Hs. by do 2 apply last_cons_Some.
      * change (p :: rest ++ args2) with ((p :: rest) ++ args2).
        apply IH; [cbn in *; lia| |].
        -- intros Hl. apply Hb. by apply last_cons_Some.
        -- intros Hl. apply Hs. by apply last_cons_Some.
  - destruct (bool_decide (a = "--baud"%string)) eqn:E2.
    + apply bool_decide_eq_true in E2 as ->. destruct rest as [|b rest]; [done|].
      cbn [Datatypes.app]. destruct (py_int b); [|done].
      apply IH; [cbn in *; lia| |].
      * intros Hl. apply Hb. by do 2 apply last_cons_Some.
      * intros Hl. apply Hs. by do 2 apply last_cons_Some.
    + destruct (bool_decide (a = "--simulate"%string));
        (apply IH; [cbn in *; lia| |]; intros Hl; [apply Hb|apply Hs]; by apply last_cons_Some).
Qed.

Lemma parse_app (py_int : string -> option Z) (args1 args2 : list string) (c : cli) :
  last args1 <> Some "--baud"%string ->
  (last args1 = Some "--serial"%string ->
     forall p, head args2 = Some p -> String.prefix "--" p = true) ->
  parse_args_from py_int (args1 ++ args2) c =
    parse_args_from py_int args1 c ≫= parse_args_from py_int args2.
Proof. apply (parse_app_len py_int (length args1)). lia. Qed.

(** The [__main__] argument loop is compositional: parsing [args1 ++ args2]
    is parsing [args1] and then continuing with [args2] from the result,
    unless [args1] ends with [--baud] (which takes the next argument as its
    value) or ends with [--serial] and [args2] starts with a word not
    starting with "--" (which becomes the port). *)
Theorem parse_args_compose (py_int : string -> option Z) (args1 args2 : list string) :
  last args1 <> Some "--baud"%string ->
  (last args1 = Some "--serial"%string ->
     forall p, head args2 = Some p -> String.prefix "--" p = true) ->
  parse_args py_int (args1 ++ args2) = parse_args py_int args1 ≫= parse_args_from py_int args2.
Proof. intros Hb Hs. unfold parse_args. by apply parse_app. Qed.

Lemma parse_args_compose_witness :
  last ["--serial"; "/dev/ttyACM0"]%string <> Some "--baud"%string /\
  (last ["--serial"; "/dev/ttyACM0"]%string = Some "--serial"%string ->
     forall p, head ["--simulate"]%string = Some p -> String.prefix "--" p = true) /\
  parse_args (fun _ => None) (["--serial"; "/dev/ttyACM0"]%string ++ ["--simulate"]%string) =
    parse_args (fun _ => None) ["--serial"; "/dev/ttyACM0"]%string ≫=
      parse_args_from (fun _ => None) ["--simulate"]%string.
Proof.
  assert (Hb : last ["--serial"; "/dev/ttyACM0"]%string <> Some "--baud"%string) by discriminate.
  assert (Hs : last ["--serial"; "/dev/ttyACM0"]%string = Some "--serial"%string ->
     forall p, head ["--simulate"]%string = Some p -> String.prefix "--" p = true)
    by (intros [=]).
  split; [exact Hb|]. split; [exact Hs|]. exact (parse_args_compose _ _ _ Hb Hs).
Defined.

(** Options at the end of the command line (after arguments that do not
    end with [--baud]) take effect last: [--simulate] turns simulation on,
    [--serial] with no port turns it off, both keeping port and baud rate;
    [--baud b] sets the baud rate to [int(b)], and a [b] that is not an
    integer makes the whole command line fail with [ValueError]. *)
Theorem parse_args_trailing_options (py_int : string -> option Z) (args : list string) (b : string) :
  last args <> Some "--baud"%string ->
  parse_args py_int (args ++ ["--simulate"]) =
    (fun c => Cli true (cli_serial_port c) (cli_baud_rate c)) <$> parse_args py_int args /\
  parse_args py_int (args ++ ["--serial"]) =
    (fun c => Cli false (cli_serial_port c) (cli_baud_rate c)) <$> parse_args py_int args /\
  parse_args py_int (args ++ ["--baud"; b]) =
    (c ← parse_args py_int args; z ← py_int b; Some (Cli (cli_simulate c) (cli_serial_port c) z)).
Proof.
  intros Hb. unfold parse_args.
  rewrite !parse_app by (done || (intros _ p [= <-]; reflexivity)).
  destruct (parse_args_from py_int args cli_default) as [c|]; [|done]. cbn.
  split; [done|]. split; [done|]. by destruct (py_int b).
Qed.

Lemma parse_args_trailing_options_witness :
  last ["--serial"]%string <> Some "--baud"%string /\
  parse_args (fun s => if bool_decide (s = "9600"%string) then Some 9600 else None)
    (["--serial"]%string ++ ["--simulate"]%string) =
    (fun c => Cli true (cli_serial_port c) (cli_baud_rate c)) <$>
      parse_args (fun s => if bool_decide (s = "9600"%string) then Some 9600 else None)
        ["--serial"]%string /\
  parse_args (fun s => if bool_decide (s = "9600"%string) then Some 9600 else None)
    (["--serial"]%string ++ ["--serial"]%string) =
    (fun c => Cli false (cli_serial_port c) (cli_baud_rate c)) <$>
      parse_args (fun s => if bool_decide (s = "9600"%string) then Some 9600 else None)
        ["--serial"]%string /\
  parse_args (fun s => if bool_decide (s = "9600"%string) then Some 9600 else None)
    (["--serial"]%string ++ ["--baud"; "9600"]%string) =
    (c ← parse_args (fun s => if bool_decide (s = "9600"%string) then Some 9600 else None)
           ["--serial"]%string;
     z ← (fun s => if bool_decide (s = "9600"%string) then Some 9600 else None) "9600"%string;
     Some (Cli (cli_simulate c) (cli_serial_port c) z)).
Proof.
  assert (Hb : last ["--serial"]%string <> Some "--baud"%string) by discriminate.
  split; [exact Hb|]. exact (parse_args_trailing_options _ _ _ Hb).
Defined.

(** [RaceDashApp.build] never starts the threads: it passes [serial_port]
    and [baud_rate] to [CANThread.__init__(self, signal_buffer,
    simulate=True)], so whatever the command line, the program stops with
    the [ValueError] of [--baud] or with a [TypeError] on [serial_port]. *)
Theorem main_never_starts (py_int : string -> option Z) (args : list string) :
  main py_int core_init_params args =
    match parse_args py_int args with
    | None => inl StartValueError
    | Some _ => inl (StartTypeError "serial_port")
    end.
Proof. unfold main. destruct (parse_args py_int args) as [c|]; reflexivity. Qed.

End StartupProofs.


